(** * Zephyr scheduler-evaluation tooling: log parser and result aggregation

    A shallow embedding of
    - [app/jack_test/parse_output.py]      (class [ZephyrOutputParser]),
    - [app/scheduler_evaluation/scripts/plot_results.py]
      ([load_csv], the efficiency bands, the per-scheduler statistics of
      [generate_text_report]),
    - [app/workloads/scripts/compare_schedulers.py]
      ([find_best_scheduler], the grouping by workload),
    together with the properties of these functions.

    Conventions.  Log lines and CSV cells are ASCII strings.  Python's [re]
    is embedded as a backtracking matcher over a small regular-expression
    syntax (greedy repetition, leftmost match, numbered groups); the classes
    [\d], [\w], [\s] are their ASCII versions.  Python [int] is [Z]; Python
    [float] is the kernel's binary64 ([PrimFloat.float]).  A Python [dict]
    used as a map is a [gmap]; a [dict] literal with fixed keys (one log
    record) is an association list in the order of the literal.  A function
    that may raise returns an [outcome]. *)

From Stdlib Require Import ZArith NArith Ascii String List Floats Permutation.
From stdpp Require Import base option list gmap strings sorting.
Import ListNotations.

#[local] Set Warnings "-clear-no-such-hyp,-inexact-float".

Local Open Scope Z_scope.
Local Open Scope string_scope.

(** ** Outcomes of Python calls *)

Inductive exn : Type :=
| KeyError (key : string)
| ValueError
| AttributeError
| ZeroDivisionError
| OverflowError.

Inductive outcome (A : Type) : Type :=
| Returned (a : A)
| Raised (e : exn).
Arguments Returned {A} a.
Arguments Raised {A} e.

(** Sequencing: an exception raised by the first call ends the computation
    (written [x ← c; k] below). *)
#[global] Instance outcome_ret : MRet outcome := fun A a => Returned a.
#[global] Instance outcome_bind : MBind outcome := fun A B f x =>
  match x with
  | Returned a => f a
  | Raised e => Raised e
  end.

(** ** Strings *)

Module PyStr.

(** [needle in hay] *)
Fixpoint contains (needle hay : string) : bool :=
  if String.prefix needle hay then true
  else match hay with
       | EmptyString => false
       | String _ hay' => contains needle hay'
       end.

Definition code (c : ascii) : N := N_of_ascii c.

Definition is_digit (c : ascii) : bool := ((48 <=? code c) && (code c <=? 57))%N.
Definition is_lower (c : ascii) : bool := ((97 <=? code c) && (code c <=? 122))%N.
Definition is_upper (c : ascii) : bool := ((65 <=? code c) && (code c <=? 90))%N.
(** [\w] *)
Definition is_word (c : ascii) : bool :=
  is_digit c || is_lower c || is_upper c || (code c =? 95)%N.
(** [\s]: tab, newline, vertical tab, form feed, carriage return, the four
    separators 0x1c-0x1f and the space. *)
Definition is_space (c : ascii) : bool :=
  (((9 <=? code c) && (code c <=? 13)) || ((28 <=? code c) && (code c <=? 32)))%N.
(** [[0-9a-f]] *)
Definition is_hex (c : ascii) : bool :=
  (is_digit c || ((97 <=? code c) && (code c <=? 102)))%N.
(** [.] (no DOTALL flag): anything but a newline *)
Definition is_dot (c : ascii) : bool := negb (code c =? 10)%N.
(** [[^-]] *)
Definition is_not_dash (c : ascii) : bool := negb (code c =? 45)%N.

Fixpoint forallb_str (p : ascii -> bool) (s : string) : bool :=
  match s with
  | EmptyString => true
  | String c s' => p c && forallb_str p s'
  end.

Definition digit_val (c : ascii) : Z := Z.of_N (code c) - 48.

(** The value of a string of decimal digits, most significant first. *)
Fixpoint digits_val (acc : Z) (s : string) : Z :=
  match s with
  | EmptyString => acc
  | String c s' => digits_val (10 * acc + digit_val c) s'
  end.

(** [s.strip()] *)
Fixpoint lstrip (s : string) : string :=
  match s with
  | EmptyString => EmptyString
  | String c s' => if is_space c then lstrip s' else s
  end.

Fixpoint rstrip (s : string) : string :=
  match s with
  | EmptyString => EmptyString
  | String c s' =>
      match rstrip s' with
      | EmptyString => if is_space c then EmptyString else String c EmptyString
      | t => String c t
      end
  end.

Definition strip (s : string) : string := rstrip (lstrip s).

(** A run of decimal digits in which single underscores may separate two
    digits ([1_000]); [after_digit] says that the previous character was a
    digit. *)
Fixpoint digitpart (after_digit : bool) (acc : Z) (s : string) : option Z :=
  match s with
  | EmptyString => if after_digit then Some acc else None
  | String c s' =>
      if is_digit c then digitpart true (10 * acc + digit_val c) s'
      else if (code c =? 95)%N && after_digit then digitpart false acc s'
      else None
  end.

(** [int(s)] for a string [s]: surrounding blanks, an optional sign, decimal
    digits.  (The interpreter's configurable cap on the number of digits is
    not part of the model: integers are unbounded.) *)
Definition py_int (s : string) : outcome Z :=
  let t := strip s in
  let r := match t with
           | String "+" t' => digitpart false 0 t'
           | String "-" t' => Z.opp <$> digitpart false 0 t'
           | _ => digitpart false 0 t
           end in
  match r with
  | Some z => Returned z
  | None => Raised ValueError
  end.

End PyStr.

(** ** Regular expressions ([re.search]) *)

Module Re.
Import PyStr.

Inductive regex : Type :=
| Eps
| Chr (c : ascii)
| Cls (p : ascii -> bool)
| Seq (r1 r2 : regex)
| Star (r : regex)
| Group (n : nat) (r : regex).

(** A literal run of characters. *)
Fixpoint lit (s : string) : regex :=
  match s with
  | EmptyString => Eps
  | String c s' => Seq (Chr c) (lit s')
  end.

(** Concatenation of the pieces of a pattern, left to right. *)
Definition cat (rs : list regex) : regex := fold_right Seq Eps rs.

(** [r+] *)
Definition plus (r : regex) : regex := Seq r (Star r).

(** A match object: the text of each group that took part in the match. *)
Definition captures : Type := list (nat * string).

Definition set_group (n : nat) (w : string) (caps : captures) : captures :=
  (n, w) :: caps.

Fixpoint group (caps : captures) (n : nat) : string :=
  match caps with
  | [] => ""
  | (i, w) :: caps' => if Nat.eqb i n then w else group caps' n
  end.

(** The characters consumed between the input [s] and its suffix [s']. *)
Definition consumed (s s' : string) : string :=
  substring 0 (String.length s - String.length s') s.

(** Greedy repetition: one more round of [step] first, and only when that
    leads nowhere the continuation [k].  A round must consume input, so
    [fuel], the length of the input, is never exhausted before the input. *)
Definition star_loop
    (step : string -> captures -> (string -> captures -> option captures)
            -> option captures)
    (k : string -> captures -> option captures)
    : nat -> string -> captures -> option captures :=
  fix star (fuel : nat) (s : string) (caps : captures) : option captures :=
    match fuel with
    | O => k s caps
    | S fuel' =>
        match step s caps
                (fun s' caps' =>
                   if (String.length s' <? String.length s)%nat
                   then star fuel' s' caps' else None) with
        | Some c => Some c
        | None => k s caps
        end
    end.

(** Backtracking matcher in continuation-passing style: [k] receives the
    rest of the input and the groups so far; the first success in the order
    in which a backtracking engine tries the alternatives (longest
    repetition first) is the answer. *)
Fixpoint exec (r : regex) (s : string) (caps : captures)
    (k : string -> captures -> option captures) {struct r} : option captures :=
  match r with
  | Eps => k s caps
  | Chr c =>
      match s with
      | String c' s' => if Ascii.eqb c c' then k s' caps else None
      | EmptyString => None
      end
  | Cls p =>
      match s with
      | String c' s' => if p c' then k s' caps else None
      | EmptyString => None
      end
  | Seq r1 r2 => exec r1 s caps (fun s' caps' => exec r2 s' caps' k)
  | Star r' => star_loop (exec r') k (String.length s) s caps
  | Group n r' =>
      exec r' s caps (fun s' caps' => k s' (set_group n (consumed s s') caps'))
  end.

Definition match_at (r : regex) (s : string) : option captures :=
  exec r s [] (fun _ caps => Some caps).

(** [re.search]: the match at the leftmost position that has one. *)
Fixpoint search (r : regex) (s : string) : option captures :=
  match match_at r s with
  | Some caps => Some caps
  | None =>
      match s with
      | EmptyString => None
      | String _ s' => search r s'
      end
  end.

(** What it means for [r] to match the word [w], turning the groups [c0]
    into [c1]: the declarative reading of the syntax, against which [exec]
    is checked below. *)
Inductive matches : regex -> string -> captures -> captures -> Prop :=
| M_eps c0 : matches Eps "" c0 c0
| M_chr c c0 : matches (Chr c) (String c "") c0 c0
| M_cls p c c0 : p c = true -> matches (Cls p) (String c "") c0 c0
| M_seq r1 r2 w1 w2 c0 c1 c2 :
    matches r1 w1 c0 c1 -> matches r2 w2 c1 c2 ->
    matches (Seq r1 r2) (w1 ++ w2) c0 c2
| M_star_nil r c0 : matches (Star r) "" c0 c0
| M_star_cons r w1 w2 c0 c1 c2 :
    matches r w1 c0 c1 -> matches (Star r) w2 c1 c2 ->
    matches (Star r) (w1 ++ w2) c0 c2
| M_group n r w c0 c1 :
    matches r w c0 c1 -> matches (Group n r) w c0 (set_group n w c1).

(** No capturing group occurs in [r]. *)
Fixpoint nogroup (r : regex) : bool :=
  match r with
  | Eps | Chr _ | Cls _ => true
  | Seq r1 r2 => nogroup r1 && nogroup r2
  | Star r' => nogroup r'
  | Group _ _ => false
  end.

(** [r{2}] and [r{3}] *)
Definition rep2 (r : regex) : regex := Seq r r.
Definition rep3 (r : regex) : regex := Seq r (Seq r r).

End Re.

(** ** The log parser of [parse_output.py] *)

Module ParseOutput.
Import PyStr Re.

(** *** [self.patterns] *)

Definition hexnum : regex := Seq (lit "0x") (plus (Cls is_hex)).
Definition d2 : regex := rep2 (Cls is_digit).
Definition d3 : regex := rep3 (Cls is_digit).

Definition pat_timestamp : regex :=
  cat [lit "[";
       Group 1 (cat [d2; lit ":"; d2; lit ":"; d2; lit "."; d3; lit ","; d3]);
       lit "]"].
Definition pat_task_completion : regex :=
  cat [lit "<inf> "; plus (Cls is_word); lit ": ";
       Group 1 (Seq (plus (Cls is_word))
                    (Star (Seq (plus (Cls is_space)) (plus (Cls is_word)))));
       lit " Task completed "; Group 2 (plus (Cls is_digit)); lit " ";
       Group 3 (plus (Cls is_word))].
Definition pat_simulation_time : regex :=
  cat [lit "<inf> mission_critical: Simulation Time Elapsed: ";
       Group 1 (plus (Cls is_digit)); lit " seconds"].
Definition pat_scheduler_state : regex :=
  cat [lit "<inf> mission_critical: Scheduler State: Current Thread ";
       Group 1 hexnum; lit ", Priority "; Group 2 (plus (Cls is_digit))].
Definition pat_context_switch : regex :=
  cat [lit "<dbg> timing_analysis: Context switch: "; Group 1 hexnum;
       lit " -> "; Group 2 hexnum; lit " (total: ";
       Group 3 (plus (Cls is_digit)); lit ")"].
Definition pat_task_execution : regex :=
  cat [lit "<inf> "; plus (Cls is_word); lit ": ";
       Group 1 (plus (Cls is_word)); lit ": ";
       Group 2 (plus (Cls is_not_dash)); lit " - Thread "; Group 3 hexnum].
Definition pat_emergency : regex :=
  cat [lit "<err> critical_tasks: EMERGENCY: "; Group 1 (plus (Cls is_dot))].
Definition pat_safety_violation : regex :=
  lit "<wrn> critical_tasks: Safety Monitor: Safety violation detected!".
Definition pat_timing_analysis : regex :=
  lit "<inf> timing_analysis: === TIMING ANALYSIS REPORT ===".
Definition pat_memory_analysis : regex :=
  cat [lit "<inf> timing_analysis: Task "; Group 1 (plus (Cls is_digit));
       lit ": monitored (thread ptr: "; Group 2 hexnum; lit ")"].
Definition pat_fault_detection : regex :=
  cat [lit "<inf> critical_tasks: FAULT: Detection cycle ";
       Group 1 (plus (Cls is_digit)); lit " - Thread "; Group 2 hexnum].

(** *** Records and parser state *)

Inductive pyval : Type :=
| VNone
| VInt (z : Z)
| VStr (s : string).

(** One log record: a [dict] literal, keys in the order of the source. *)
Definition record : Type := list (string * pyval).

(** [r.get(key)] *)
Fixpoint get (r : record) (key : string) : option pyval :=
  match r with
  | [] => None
  | (k, v) :: r' => if String.eqb k key then Some v else get r' key
  end.

(** [key in r] *)
Definition has_key (key : string) (r : record) : bool :=
  match get r key with Some _ => true | None => false end.

(** A value of [self.tasks]: the completion record of a task, or the list
    that [_parse_fault_detection] keeps under ['fault_cycles']. *)
Inductive task_value : Type :=
| TaskRecord (r : record)
| FaultCycles (l : list record).

Record ZephyrOutputParser : Type := mkParser {
  tasks : gmap string task_value;
  timing_data : list record;
  scheduler_events : list record;
  memory_data : list record;
  emergency_events : list record;
  safety_violations : list record;
  simulation_time : Z
}.

(** [ZephyrOutputParser.__init__] *)
Definition init : ZephyrOutputParser :=
  {| tasks := ∅; timing_data := []; scheduler_events := []; memory_data := [];
     emergency_events := []; safety_violations := []; simulation_time := 0 |}.

Definition with_tasks (t : gmap string task_value) (self : ZephyrOutputParser) :=
  {| tasks := t; timing_data := timing_data self;
     scheduler_events := scheduler_events self; memory_data := memory_data self;
     emergency_events := emergency_events self;
     safety_violations := safety_violations self;
     simulation_time := simulation_time self |}.

Definition with_timing_data (l : list record) (self : ZephyrOutputParser) :=
  {| tasks := tasks self; timing_data := l;
     scheduler_events := scheduler_events self; memory_data := memory_data self;
     emergency_events := emergency_events self;
     safety_violations := safety_violations self;
     simulation_time := simulation_time self |}.

Definition with_scheduler_events (l : list record) (self : ZephyrOutputParser) :=
  {| tasks := tasks self; timing_data := timing_data self;
     scheduler_events := l; memory_data := memory_data self;
     emergency_events := emergency_events self;
     safety_violations := safety_violations self;
     simulation_time := simulation_time self |}.

Definition with_memory_data (l : list record) (self : ZephyrOutputParser) :=
  {| tasks := tasks self; timing_data := timing_data self;
     scheduler_events := scheduler_events self; memory_data := l;
     emergency_events := emergency_events self;
     safety_violations := safety_violations self;
     simulation_time := simulation_time self |}.

Definition with_emergency_events (l : list record) (self : ZephyrOutputParser) :=
  {| tasks := tasks self; timing_data := timing_data self;
     scheduler_events := scheduler_events self; memory_data := memory_data self;
     emergency_events := l;
     safety_violations := safety_violations self;
     simulation_time := simulation_time self |}.

Definition with_safety_violations (l : list record) (self : ZephyrOutputParser) :=
  {| tasks := tasks self; timing_data := timing_data self;
     scheduler_events := scheduler_events self; memory_data := memory_data self;
     emergency_events := emergency_events self;
     safety_violations := l;
     simulation_time := simulation_time self |}.

Definition with_simulation_time (n : Z) (self : ZephyrOutputParser) :=
  {| tasks := tasks self; timing_data := timing_data self;
     scheduler_events := scheduler_events self; memory_data := memory_data self;
     emergency_events := emergency_events self;
     safety_violations := safety_violations self;
     simulation_time := n |}.

(** *** The handlers *)

Definition completion_record (count : Z) (unit : string) (timestamp : pyval) : record :=
  [("count", VInt count); ("unit", VStr unit); ("completion_time", timestamp)].

Definition _parse_task_completion (self : ZephyrOutputParser) (line : string)
    (timestamp : pyval) : outcome ZephyrOutputParser :=
  match search pat_task_completion line with
  | Some m =>
      let task_name := group m 1 in
      count ← py_int (group m 2);
      let unit := group m 3 in
      mret (with_tasks
              (<[task_name := TaskRecord (completion_record count unit timestamp)]>
                 (tasks self)) self)
  | None => mret self
  end.

Definition _parse_simulation_time (self : ZephyrOutputParser) (line : string)
    (timestamp : pyval) : outcome ZephyrOutputParser :=
  match search pat_simulation_time line with
  | Some m =>
      n ← py_int (group m 1);
      let self := with_simulation_time n self in
      mret (with_timing_data
              (timing_data self ++
                 [[("timestamp", timestamp);
                   ("simulation_seconds", VInt (simulation_time self))]]) self)
  | None => mret self
  end.

Definition _parse_scheduler_state (self : ZephyrOutputParser) (line : string)
    (timestamp : pyval) : outcome ZephyrOutputParser :=
  match search pat_scheduler_state line with
  | Some m =>
      let thread_id := group m 1 in
      priority ← py_int (group m 2);
      mret (with_scheduler_events
              (scheduler_events self ++
                 [[("timestamp", timestamp);
                   ("current_thread", VStr thread_id);
                   ("priority", VInt priority);
                   ("simulation_time", VInt (simulation_time self))]]) self)
  | None => mret self
  end.

Definition _parse_context_switch (self : ZephyrOutputParser) (line : string)
    (timestamp : pyval) : outcome ZephyrOutputParser :=
  match search pat_context_switch line with
  | Some m =>
      let from_thread := group m 1 in
      let to_thread := group m 2 in
      total_switches ← py_int (group m 3);
      mret (with_scheduler_events
              (scheduler_events self ++
                 [[("timestamp", timestamp);
                   ("type", VStr "context_switch");
                   ("from_thread", VStr from_thread);
                   ("to_thread", VStr to_thread);
                   ("total_switches", VInt total_switches)]]) self)
  | None => mret self
  end.

Definition _parse_emergency (self : ZephyrOutputParser) (line : string)
    (timestamp : pyval) : outcome ZephyrOutputParser :=
  match search pat_emergency line with
  | Some m =>
      let message := group m 1 in
      mret (with_emergency_events
              (emergency_events self ++
                 [[("timestamp", timestamp);
                   ("message", VStr message);
                   ("simulation_time", VInt (simulation_time self))]]) self)
  | None => mret self
  end.

Definition _parse_safety_violation (self : ZephyrOutputParser) (line : string)
    (timestamp : pyval) : outcome ZephyrOutputParser :=
  mret (with_safety_violations
          (safety_violations self ++
             [[("timestamp", timestamp);
               ("simulation_time", VInt (simulation_time self))]]) self).

Definition _parse_timing_report_start (self : ZephyrOutputParser) (line : string)
    (timestamp : pyval) : outcome ZephyrOutputParser :=
  mret (with_timing_data
          (timing_data self ++
             [[("timestamp", timestamp);
               ("event", VStr "timing_report");
               ("simulation_time", VInt (simulation_time self))]]) self).

Definition _parse_memory_data (self : ZephyrOutputParser) (line : string)
    (timestamp : pyval) : outcome ZephyrOutputParser :=
  match search pat_memory_analysis line with
  | Some m =>
      task_id ← py_int (group m 1);
      let thread_ptr := group m 2 in
      mret (with_memory_data
              (memory_data self ++
                 [[("timestamp", timestamp);
                   ("task_id", VInt task_id);
                   ("thread_ptr", VStr thread_ptr);
                   ("simulation_time", VInt (simulation_time self))]]) self)
  | None => mret self
  end.

Definition fault_record (timestamp : pyval) (cycle : Z) (thread_id : string)
    (clock : Z) : record :=
  [("timestamp", timestamp); ("cycle", VInt cycle);
   ("thread_id", VStr thread_id); ("simulation_time", VInt clock)].

(** [self.tasks['fault_cycles'].append(...)]: the value under the key must be
    a list; a [dict] has no [append]. *)
Definition _parse_fault_detection (self : ZephyrOutputParser) (line : string)
    (timestamp : pyval) : outcome ZephyrOutputParser :=
  match search pat_fault_detection line with
  | Some m =>
      cycle ← py_int (group m 1);
      let thread_id := group m 2 in
      let tasks1 :=
        match tasks self !! "fault_cycles" with
        | None => <["fault_cycles" := FaultCycles []]> (tasks self)
        | Some _ => tasks self
        end in
      match tasks1 !! "fault_cycles" with
      | Some (FaultCycles l) =>
          mret (with_tasks
                  (<["fault_cycles" :=
                       FaultCycles (l ++ [fault_record timestamp cycle thread_id
                                            (simulation_time self)])]> tasks1) self)
      | Some (TaskRecord _) => Raised AttributeError
      | None => Raised (KeyError "fault_cycles")
      end
  | None => mret self
  end.

(** *** [parse_line] *)

Definition timestamp_of (line : string) : pyval :=
  match search pat_timestamp line with
  | Some m => VStr (group m 1)
  | None => VNone
  end.

Definition is_match (r : regex) (line : string) : bool :=
  match search r line with Some _ => true | None => false end.

Definition parse_line (self : ZephyrOutputParser) (line : string)
    : outcome ZephyrOutputParser :=
  let timestamp := timestamp_of line in
  if contains "Task completed" line then
    _parse_task_completion self line timestamp
  else if contains "Simulation Time Elapsed" line then
    _parse_simulation_time self line timestamp
  else if contains "Scheduler State" line then
    _parse_scheduler_state self line timestamp
  else if contains "Context switch" line then
    _parse_context_switch self line timestamp
  else if contains "EMERGENCY:" line then
    _parse_emergency self line timestamp
  else if contains "Safety violation detected" line then
    _parse_safety_violation self line timestamp
  else if contains "TIMING ANALYSIS REPORT" line then
    _parse_timing_report_start self line timestamp
  else if is_match pat_memory_analysis line then
    _parse_memory_data self line timestamp
  else if is_match pat_fault_detection line then
    _parse_fault_detection self line timestamp
  else mret self.

(** The loop of [main]: the lines in order; an exception ends the run. *)
Fixpoint parse_lines (self : ZephyrOutputParser) (lines : list string)
    : outcome ZephyrOutputParser :=
  match lines with
  | [] => mret self
  | line :: rest => self' ← parse_line self line; parse_lines self' rest
  end.

(** [main] strips each line before it is classified. *)
Definition main_parse (lines : list string) : outcome ZephyrOutputParser :=
  parse_lines init (map strip lines).

(** *** [get_summary] and [export_json] *)

Record summary : Type := mkSummary {
  simulation_duration : Z;
  total_tasks : nat;
  task_performance : gmap string task_value;
  scheduler_events_count : nat;
  emergency_events_count : nat;
  safety_violations_count : nat;
  timing_reports_count : nat;
  memory_entries_count : nat
}.

Definition get_summary (self : ZephyrOutputParser) : summary :=
  {| simulation_duration := simulation_time self;
     total_tasks := size (tasks self);
     task_performance := tasks self;
     scheduler_events_count := length (scheduler_events self);
     emergency_events_count := length (emergency_events self);
     safety_violations_count := length (safety_violations self);
     timing_reports_count := length (filter (fun t => has_key "event" t = true)
                                            (timing_data self));
     memory_entries_count := length (memory_data self) |}.

(** The [data] dictionary that [export_json] writes. *)
Record export : Type := mkExport {
  x_summary : summary;
  x_tasks : gmap string task_value;
  x_timing_data : list record;
  x_scheduler_events : list record;
  x_memory_data : list record;
  x_emergency_events : list record;
  x_safety_violations : list record
}.

Definition export_json (self : ZephyrOutputParser) : export :=
  {| x_summary := get_summary self;
     x_tasks := tasks self;
     x_timing_data := timing_data self;
     x_scheduler_events := scheduler_events self;
     x_memory_data := memory_data self;
     x_emergency_events := emergency_events self;
     x_safety_violations := safety_violations self |}.

End ParseOutput.

(** ** Python floats *)

Module PyFloat.
Import PyStr.

(** The binary64 number nearest to [n / d] (ties to even), as the correctly
    rounded quotient of two integers. *)
Definition round_ratio (n : Z) (d : positive) : float :=
  SF2Prim
    match n with
    | Z0 => S754_zero false
    | Zpos p => SFdiv prec emax (S754_finite false p 0) (S754_finite false d 0)
    | Zneg p => SFdiv prec emax (S754_finite true p 0) (S754_finite false d 0)
    end.

(** [m * 10 ** e], rounded once. *)
Definition round_decimal (m e : Z) : float :=
  match e with
  | Zneg k => round_ratio m (10 ^ k)%positive
  | _ => round_ratio (m * 10 ^ e) 1
  end.

(** [float(n)] for an [int] [n]. *)
Definition of_int (n : Z) : float := round_ratio n 1.

Definition lower (c : ascii) : ascii :=
  if is_upper c then ascii_of_N (code c + 32) else c.

Fixpoint lower_str (s : string) : string :=
  match s with
  | EmptyString => EmptyString
  | String c s' => String (lower c) (lower_str s')
  end.

(** A maximal run of digits, in which an underscore must stand between two
    digits: the value accumulated on [acc], the number of digits read on
    [n], and the rest of the input. *)
Fixpoint take_digits (prev_digit pending : bool) (acc n : Z) (s : string)
    : option (Z * Z * string) :=
  match s with
  | EmptyString => if pending then None else Some (acc, n, s)
  | String c s' =>
      if is_digit c then take_digits true false (10 * acc + digit_val c) (n + 1) s'
      else if (code c =? 95)%N then
        if prev_digit then take_digits false true acc n s' else None
      else if pending then None else Some (acc, n, s)
  end.

(** The exponent part: nothing, or [e] or [E], an optional sign and digits;
    nothing may follow. *)
Definition exponent (s : string) : option Z :=
  match s with
  | EmptyString => Some 0
  | String c s' =>
      if ((code c =? 101) || (code c =? 69))%N then
        let '(neg, digits) :=
          match s' with
          | String "-" t => (true, t)
          | String "+" t => (false, t)
          | _ => (false, s')
          end in
        '(e, n, rest) ← take_digits false false 0 0 digits;
        if (0 <? n)%Z && String.eqb rest "" then Some (if neg then (- e)%Z else e)
        else None
      else None
  end.

(** An unsigned decimal literal as mantissa and decimal exponent. *)
Definition decimal (s : string) : option (Z * Z) :=
  '(ip, ni, r1) ← take_digits false false 0 0 s;
  match r1 with
  | String "." r2 =>
      '(m, nf, r3) ← take_digits false false ip 0 r2;
      if (0 <? ni + nf)%Z then e ← exponent r3; Some (m, (e - nf)%Z) else None
  | _ => if (0 <? ni)%Z then e ← exponent r1; Some (ip, e) else None
  end.

(** [float(s)] for a string [s]: surrounding blanks, an optional sign, then
    [inf], [infinity] or [nan] in any case, or a decimal literal. *)
Definition py_float (s : string) : outcome float :=
  let t := strip s in
  let '(neg, body) :=
    match t with
    | String "-" t' => (true, t')
    | String "+" t' => (false, t')
    | _ => (false, t)
    end in
  let signed (x : float) : float := if neg then (- x)%float else x in
  let name := lower_str body in
  if String.eqb name "inf" || String.eqb name "infinity" then Returned (signed infinity)
  else if String.eqb name "nan" then Returned nan
  else match decimal body with
       | Some (m, e) => Returned (signed (round_decimal m e))
       | None => Raised ValueError
       end.

(** [x < y], [x > y], [x <= y] on floats. *)
Definition lt (x y : float) : bool := PrimFloat.ltb x y.
Definition gt (x y : float) : bool := PrimFloat.ltb y x.
Definition le (x y : float) : bool := PrimFloat.leb x y.

(** A float that is neither NaN nor the negative zero: on these, [<] is a
    strict total order.  [SFordinary] says the same of the specification
    floats of the library. *)
Definition SFordinary (x : spec_float) : bool :=
  match x with
  | S754_nan | S754_zero true => false
  | _ => true
  end.

Definition ordinary (x : float) : bool :=
  negb (is_nan x) && negb (is_zero x && get_sign x).

(** [sum(xs)] for floats: the additions from left to right, starting from
    the integer 0 (the summation loop of CPython up to 3.11). *)
Definition sum (xs : list float) : float := fold_left PrimFloat.add xs 0%float.

(** [max(xs)] and [min(xs)]: the first element is kept until a strictly
    greater (smaller) one is met; [None] stands for the [ValueError] on an
    empty sequence. *)
Definition max_of {A : Type} (gtb : A -> A -> bool) (xs : list A) : option A :=
  match xs with
  | [] => None
  | x :: rest => Some (fold_left (fun best y => if gtb y best then y else best) rest x)
  end.

End PyFloat.

(** ** [plot_results.py]: the loader and the per-scheduler report *)

Module PlotResults.
Import PyStr PyFloat.

(** A row of the CSV file as [csv.DictReader] yields it: column name to
    cell text (every line of the file is taken to have a cell for each
    column of the header). *)
Abbreviation csv_row := (gmap string string).

(** A row after [load_csv]: the thirteen numeric columns converted, the
    cells of the file kept under [columns]. *)
Record Row : Type := mkRow {
  columns : csv_row;
  Threads : Z;
  Activations : Z;
  Misses : Z;
  MissRate : float;
  AvgResponseTime : Z;
  MaxResponseTime : Z;
  Jitter : Z;
  ContextSwitches : Z;
  Preemptions : Z;
  CSPerActivation : float;
  OverheadPercent : float;
  Utilization : float;
  NormalizedMissRate : float
}.

(** [row[key]] *)
Definition item (row : csv_row) (key : string) : outcome string :=
  match row !! key with
  | Some v => Returned v
  | None => Raised (KeyError key)
  end.

(** [int(row.get(key, 0))] and [float(row.get(key, 0))] *)
Definition int_or_0 (row : csv_row) (key : string) : outcome Z :=
  match row !! key with
  | Some v => py_int v
  | None => Returned 0
  end.
Definition float_or_0 (row : csv_row) (key : string) : outcome float :=
  match row !! key with
  | Some v => py_float v
  | None => Returned (of_int 0)
  end.

(** The body of the loop of [load_csv]. *)
Definition load_row (row : csv_row) : outcome Row :=
  threads ← item row "Threads" ≫= py_int;
  activations ← item row "Activations" ≫= py_int;
  misses ← item row "Misses" ≫= py_int;
  miss_rate ← item row "MissRate" ≫= py_float;
  avg_response_time ← int_or_0 row "AvgResponseTime";
  max_response_time ← int_or_0 row "MaxResponseTime";
  jitter ← int_or_0 row "Jitter";
  context_switches ← int_or_0 row "ContextSwitches";
  preemptions ← int_or_0 row "Preemptions";
  cs_per_activation ← float_or_0 row "CSPerActivation";
  overhead_percent ← float_or_0 row "OverheadPercent";
  utilization ← float_or_0 row "Utilization";
  normalized_miss_rate ← float_or_0 row "NormalizedMissRate";
  mret {| columns := row; Threads := threads; Activations := activations;
          Misses := misses; MissRate := miss_rate;
          AvgResponseTime := avg_response_time;
          MaxResponseTime := max_response_time; Jitter := jitter;
          ContextSwitches := context_switches; Preemptions := preemptions;
          CSPerActivation := cs_per_activation;
          OverheadPercent := overhead_percent; Utilization := utilization;
          NormalizedMissRate := normalized_miss_rate |}.

Fixpoint load_csv (rows : list csv_row) : outcome (list Row) :=
  match rows with
  | [] => mret []
  | row :: rest => r ← load_row row; data ← load_csv rest; mret (r :: data)
  end.



(** [get_unique_values(data, key)] for a text column:
    [sorted(list(set(...)))]. *)
Fixpoint column (key : string) (data : list Row) : outcome (list string) :=
  match data with
  | [] => mret []
  | r :: rest => v ← item (columns r) key; vs ← column key rest; mret (v :: vs)
  end.
Definition get_unique_values (data : list Row) (key : string) : outcome (list string) :=
  vs ← column key data;
  mret (merge_sort String.le (elements (list_to_set vs : gset string))).

(** [[r for r in data if r['Scheduler'] == sched]] *)
Definition sched_data (data : list Row) (sched : string) : list Row :=
  filter (fun r => columns r !! "Scheduler" = Some sched) data.

(** [sum(...)] of integers, and [a / b] for two integers (true division). *)
Definition sum_int (xs : list Z) : Z := fold_left Z.add xs 0.
Definition int_truediv (a b : Z) : outcome float :=
  match b with
  | Z0 => Raised ZeroDivisionError
  | Zpos d => let q := round_ratio a d in
              if is_infinity q then Raised OverflowError else Returned q
  | Zneg d => let q := round_ratio (- a) d in
              if is_infinity q then Raised OverflowError else Returned q
  end.
(** [x / n] for a float [x] and the integer [n]. *)
Definition float_div_int (x : float) (n : Z) : outcome float :=
  if (n =? 0)%Z then Raised ZeroDivisionError else Returned (x / of_int n)%float.

Definition max_or_raise {A : Type} (better : A -> A -> bool) (xs : list A) : outcome A :=
  match max_of better xs with
  | Some x => Returned x
  | None => Raised ValueError
  end.

(** The statistics of one scheduler in [generate_text_report]. *)
Definition count_rows (rows : list Row) : Z := Z.of_nat (length rows).
Definition avg_float (f : Row -> float) (rows : list Row) : outcome float :=
  float_div_int (PyFloat.sum (f <$> rows)) (count_rows rows).
Definition avg_int (f : Row -> Z) (rows : list Row) : outcome float :=
  int_truediv (sum_int (f <$> rows)) (count_rows rows).
Definition max_float (f : Row -> float) (rows : list Row) : outcome float :=
  max_or_raise gt (f <$> rows).
Definition min_float (f : Row -> float) (rows : list Row) : outcome float :=
  max_or_raise lt (f <$> rows).
Definition max_int (f : Row -> Z) (rows : list Row) : outcome Z :=
  max_or_raise Z.gtb (f <$> rows).
Definition total_int (f : Row -> Z) (rows : list Row) : Z := sum_int (f <$> rows).
Definition zero_miss (rows : list Row) : nat :=
  length (filter (fun r => Misses r = 0) rows).

(** The efficiency rating of the report and the bar color of
    [plot_normalized_miss_rate]. *)
Definition efficiency (avg_normalized : float) : string :=
  if lt avg_normalized 10 then "EXCELLENT - Very efficient"
  else if lt avg_normalized 25 then "GOOD - Reasonably efficient"
  else if lt avg_normalized 50 then "ACCEPTABLE - Moderate efficiency"
  else "POOR - Low efficiency".

Definition bar_color (val : float) : string :=
  if lt val 10 then "darkgreen"
  else if lt val 25 then "green"
  else if lt val 50 then "orange"
  else "red".

(** The star rating of the report, which grades the average raw miss rate
    (the stars of the source text are left out). *)
Definition rating (avg_miss : float) : string :=
  if lt avg_miss 1 then "EXCELLENT"
  else if lt avg_miss 5 then "GOOD"
  else if lt avg_miss 15 then "ACCEPTABLE"
  else if lt avg_miss 30 then "POOR"
  else "INADEQUATE".

Record SchedulerReport : Type := mkReport {
  r_scheduler : string;
  r_rows : nat;
  r_avg_miss : float;
  r_max_miss : float;
  r_min_miss : float;
  r_avg_overhead : float;
  r_avg_cs : float;
  r_total_cs : Z;
  r_avg_response : float;
  r_max_response : Z;
  r_avg_jitter : float;
  r_max_jitter : Z;
  r_zero_miss : nat;
  r_avg_util : float;
  r_avg_normalized : float;
  r_efficiency : string;
  r_rating : string
}.

Definition scheduler_report (data : list Row) (sched : string) : outcome SchedulerReport :=
  let rows := sched_data data sched in
  avg_miss ← avg_float MissRate rows;
  max_miss ← max_float MissRate rows;
  min_miss ← min_float MissRate rows;
  avg_overhead ← avg_float OverheadPercent rows;
  avg_cs ← avg_float CSPerActivation rows;
  let total_cs := total_int ContextSwitches rows in
  avg_response ← avg_int AvgResponseTime rows;
  max_response ← max_int MaxResponseTime rows;
  avg_jitter ← avg_int Jitter rows;
  max_jitter ← max_int Jitter rows;
  let zero := zero_miss rows in
  avg_util ← avg_float Utilization rows;
  avg_normalized ← avg_float NormalizedMissRate rows;
  mret {| r_scheduler := sched; r_rows := length rows;
          r_avg_miss := avg_miss; r_max_miss := max_miss; r_min_miss := min_miss;
          r_avg_overhead := avg_overhead; r_avg_cs := avg_cs;
          r_total_cs := total_cs; r_avg_response := avg_response;
          r_max_response := max_response; r_avg_jitter := avg_jitter;
          r_max_jitter := max_jitter; r_zero_miss := zero;
          r_avg_util := avg_util; r_avg_normalized := avg_normalized;
          r_efficiency := efficiency avg_normalized;
          r_rating := rating avg_miss |}.

Fixpoint reports (data : list Row) (schedulers : list string)
    : outcome (list SchedulerReport) :=
  match schedulers with
  | [] => mret []
  | sched :: rest =>
      r ← scheduler_report data sched; rs ← reports data rest; mret (r :: rs)
  end.

(** [generate_text_report]: one block per scheduler, in sorted order. *)
Definition generate_text_report (data : list Row) : outcome (list SchedulerReport) :=
  schedulers ← get_unique_values data "Scheduler";
  reports data schedulers.

End PlotResults.

(** ** [compare_schedulers.py] *)

Module CompareSchedulers.
Import PyStr PyFloat.

(** A result row, as [csv.DictReader] yields it. *)
Abbreviation result := (gmap string string).

Definition item (row : result) (key : string) : outcome string :=
  match row !! key with
  | Some v => Returned v
  | None => Raised (KeyError key)
  end.

(** [workloads[w].append(r)] on a [defaultdict(list)]: a new workload goes
    to the end of the dictionary. *)
Fixpoint append_to (w : string) (r : result) (groups : list (string * list result))
    : list (string * list result) :=
  match groups with
  | [] => [(w, [r])]
  | (w', rs) :: rest =>
      if String.eqb w' w then (w', (rs ++ [r])%list) :: rest
      else (w', rs) :: append_to w r rest
  end.

Fixpoint group_into (groups : list (string * list result)) (results : list result)
    : outcome (list (string * list result)) :=
  match results with
  | [] => mret groups
  | r :: rest => w ← item r "workload"; group_into (append_to w r groups) rest
  end.

(** The grouping loop shared by [compare_by_workload] and
    [find_best_scheduler]. *)
Definition group_by_workload (results : list result)
    : outcome (list (string * list result)) :=
  group_into [] results.

(** [workloads[w]], read without creating the entry. *)
Fixpoint rows_of (w : string) (groups : list (string * list result)) : list result :=
  match groups with
  | [] => []
  | (w', rs) :: rest => if String.eqb w' w then rs else rows_of w rest
  end.

(** [float(x[metric])] *)
Definition metric_of (metric : string) (x : result) : outcome float :=
  item x metric ≫= py_float.

(** [min(rows, key=...)]: the key of each row is computed once, in order;
    a row replaces the best so far only when its key is strictly smaller. *)
Fixpoint min_loop (key : result -> outcome float) (best : result) (best_key : float)
    (rest : list result) : outcome result :=
  match rest with
  | [] => mret best
  | x :: rest' =>
      k ← key x;
      if lt k best_key then min_loop key x k rest'
      else min_loop key best best_key rest'
  end.

Definition min_by (key : result -> outcome float) (rows : list result) : outcome result :=
  match rows with
  | [] => Raised ValueError
  | x :: rest => k ← key x; min_loop key x k rest
  end.


Definition best (metric : string) (rows : list result) : outcome (string * string) :=
  b ← min_by (metric_of metric) rows;
  sched ← item b "scheduler";
  value ← item b metric;
  mret (sched, value).



(** The rows of the workload [w]. *)
Definition of_workload (w : string) (r : result) : Prop := r !! "workload" = Some w.

#[global] Instance of_workload_dec (w : string) (r : result) : Decision (of_workload w r).
Proof. unfold of_workload. apply _. Defined.



End CompareSchedulers.

(** ** The classifier read as a function of the line alone

    The specification describes [parse_line] as [classify : line -> optional
    event] followed by a state update.  The definitions below state that
    reading; [parse_line_classify] (in the properties) proves that it is what
    the code computes. *)

Module Classifier.
Import PyStr Re ParseOutput.

Inductive event : Type :=
| TaskCompletion (task_name : string) (count : Z) (unit : string)
| TimeMarker (seconds : Z)
| SchedulerState (thread_id : string) (priority : Z)
| ContextSwitch (from_thread to_thread : string) (total_switches : Z)
| Emergency (message : string)
| SafetyViolation
| TimingCheckpoint
| MemorySample (task_id : Z) (thread_ptr : string)
| FaultCycle (cycle : Z) (thread_id : string).

(** The first line-shape predicate that holds decides the variant; the
    pattern of that variant then extracts the fields or yields nothing. *)
Definition classify (line : string) : option event :=
  if contains "Task completed" line then
    m ← search pat_task_completion line;
    Some (TaskCompletion (group m 1) (digits_val 0 (group m 2)) (group m 3))
  else if contains "Simulation Time Elapsed" line then
    m ← search pat_simulation_time line;
    Some (TimeMarker (digits_val 0 (group m 1)))
  else if contains "Scheduler State" line then
    m ← search pat_scheduler_state line;
    Some (SchedulerState (group m 1) (digits_val 0 (group m 2)))
  else if contains "Context switch" line then
    m ← search pat_context_switch line;
    Some (ContextSwitch (group m 1) (group m 2) (digits_val 0 (group m 3)))
  else if contains "EMERGENCY:" line then
    m ← search pat_emergency line;
    Some (Emergency (group m 1))
  else if contains "Safety violation detected" line then Some SafetyViolation
  else if contains "TIMING ANALYSIS REPORT" line then Some TimingCheckpoint
  else if is_match pat_memory_analysis line then
    m ← search pat_memory_analysis line;
    Some (MemorySample (digits_val 0 (group m 1)) (group m 2))
  else if is_match pat_fault_detection line then
    m ← search pat_fault_detection line;
    Some (FaultCycle (digits_val 0 (group m 1)) (group m 2))
  else None.

(** The records that the handlers build. *)
Definition time_marker_record (ts : pyval) (n : Z) : record :=
  [("timestamp", ts); ("simulation_seconds", VInt n)].
Definition scheduler_state_record (ts : pyval) (thread_id : string)
    (priority clock : Z) : record :=
  [("timestamp", ts); ("current_thread", VStr thread_id);
   ("priority", VInt priority); ("simulation_time", VInt clock)].
Definition context_switch_record (ts : pyval) (from_thread to_thread : string)
    (total : Z) : record :=
  [("timestamp", ts); ("type", VStr "context_switch");
   ("from_thread", VStr from_thread); ("to_thread", VStr to_thread);
   ("total_switches", VInt total)].
Definition emergency_record (ts : pyval) (message : string) (clock : Z) : record :=
  [("timestamp", ts); ("message", VStr message); ("simulation_time", VInt clock)].
Definition safety_record (ts : pyval) (clock : Z) : record :=
  [("timestamp", ts); ("simulation_time", VInt clock)].
Definition timing_report_record (ts : pyval) (clock : Z) : record :=
  [("timestamp", ts); ("event", VStr "timing_report");
   ("simulation_time", VInt clock)].
Definition memory_record (ts : pyval) (task_id : Z) (thread_ptr : string)
    (clock : Z) : record :=
  [("timestamp", ts); ("task_id", VInt task_id); ("thread_ptr", VStr thread_ptr);
   ("simulation_time", VInt clock)].

(** The effect of one classified line on the parser. *)
Definition apply_event (self : ZephyrOutputParser) (ts : pyval) (ev : event)
    : outcome ZephyrOutputParser :=
  let clock := simulation_time self in
  match ev with
  | TaskCompletion name count unit =>
      Returned (with_tasks
                  (<[name := TaskRecord (completion_record count unit ts)]>
                     (tasks self)) self)
  | TimeMarker n =>
      Returned (with_timing_data (timing_data self ++ [time_marker_record ts n])
                  (with_simulation_time n self))
  | SchedulerState th prio =>
      Returned (with_scheduler_events
                  (scheduler_events self ++ [scheduler_state_record ts th prio clock])
                  self)
  | ContextSwitch from to total =>
      Returned (with_scheduler_events
                  (scheduler_events self ++ [context_switch_record ts from to total])
                  self)
  | Emergency msg =>
      Returned (with_emergency_events
                  (emergency_events self ++ [emergency_record ts msg clock]) self)
  | SafetyViolation =>
      Returned (with_safety_violations
                  (safety_violations self ++ [safety_record ts clock]) self)
  | TimingCheckpoint =>
      Returned (with_timing_data
                  (timing_data self ++ [timing_report_record ts clock]) self)
  | MemorySample task_id ptr =>
      Returned (with_memory_data
                  (memory_data self ++ [memory_record ts task_id ptr clock]) self)
  | FaultCycle cycle th =>
      match tasks self !! "fault_cycles" with
      | None =>
          Returned (with_tasks
                      (<["fault_cycles" := FaultCycles [fault_record ts cycle th clock]]>
                         (tasks self)) self)
      | Some (FaultCycles l) =>
          Returned (with_tasks
                      (<["fault_cycles" :=
                           FaultCycles (l ++ [fault_record ts cycle th clock])]>
                         (tasks self)) self)
      | Some (TaskRecord _) => Raised AttributeError
      end
  end.

(** The simulation clock after the lines [pre]: the seconds of the most
    recent time marker among them, 0 when there is none. *)
Definition last_marker (pre : list string) : Z :=
  fold_left (fun clock line =>
               match classify line with
               | Some (TimeMarker n) => n
               | _ => clock
               end) pre 0.

(** Each line of a run together with the lines before it. *)
Fixpoint splits (pre lines : list string) : list (list string * string) :=
  match lines with
  | [] => []
  | line :: rest => (pre, line) :: splits (pre ++ [line]) rest
  end.

(** The records a list of the parser should hold after [lines]: [f] picks
    the lines that feed the list and builds each record from the line's
    timestamp, its event, and the clock left by the lines before it. *)
Definition collected (f : pyval -> Z -> event -> option record)
    (lines : list string) : list record :=
  omap (fun '(pre, line) =>
          ev ← classify line; f (timestamp_of line) (last_marker pre) ev)
       (splits [] lines).

Definition timing_of (ts : pyval) (clock : Z) (ev : event) : option record :=
  match ev with
  | TimeMarker n => Some (time_marker_record ts n)
  | TimingCheckpoint => Some (timing_report_record ts clock)
  | _ => None
  end.
Definition scheduler_state_of (ts : pyval) (clock : Z) (ev : event) : option record :=
  match ev with
  | SchedulerState th prio => Some (scheduler_state_record ts th prio clock)
  | _ => None
  end.
Definition scheduler_of (ts : pyval) (clock : Z) (ev : event) : option record :=
  match ev with
  | SchedulerState th prio => Some (scheduler_state_record ts th prio clock)
  | ContextSwitch from to total => Some (context_switch_record ts from to total)
  | _ => None
  end.
Definition memory_of (ts : pyval) (clock : Z) (ev : event) : option record :=
  match ev with
  | MemorySample task_id ptr => Some (memory_record ts task_id ptr clock)
  | _ => None
  end.
Definition emergency_of (ts : pyval) (clock : Z) (ev : event) : option record :=
  match ev with
  | Emergency msg => Some (emergency_record ts msg clock)
  | _ => None
  end.
Definition safety_of (ts : pyval) (clock : Z) (ev : event) : option record :=
  match ev with
  | SafetyViolation => Some (safety_record ts clock)
  | _ => None
  end.
Definition fault_of (ts : pyval) (clock : Z) (ev : event) : option record :=
  match ev with
  | FaultCycle cycle th => Some (fault_record ts cycle th clock)
  | _ => None
  end.

(** The simulation-time stamp of a record, under either of the two keys the
    handlers use. *)
Definition stamp (r : record) : option pyval :=
  match get r "simulation_time" with
  | Some v => Some v
  | None => get r "simulation_seconds"
  end.


(** The completion record written by the last line of [lines] that
    completes the task [name]. *)
Definition last_completion (name : string) (lines : list string) : option record :=
  fold_left (fun acc line =>
               match classify line with
               | Some (TaskCompletion n count unit) =>
                   if String.eqb n name
                   then Some (completion_record count unit (timestamp_of line))
                   else acc
               | _ => acc
               end) lines None.

(** The names of the tasks that some line of [lines] completes. *)
Definition completed_names (lines : list string) : gset string :=
  list_to_set (omap (fun line =>
                       match classify line with
                       | Some (TaskCompletion n _ _) => Some n
                       | _ => None
                       end) lines).

Definition is_fault_line (line : string) : bool :=
  match classify line with
  | Some (FaultCycle _ _) => true
  | _ => false
  end.

(** A line that no line-shape predicate accepts. *)
Definition unrecognized (line : string) : Prop :=
  contains "Task completed" line = false /\
  contains "Simulation Time Elapsed" line = false /\
  contains "Scheduler State" line = false /\
  contains "Context switch" line = false /\
  contains "EMERGENCY:" line = false /\
  contains "Safety violation detected" line = false /\
  contains "TIMING ANALYSIS REPORT" line = false /\
  is_match pat_memory_analysis line = false /\
  is_match pat_fault_detection line = false.

(** The marker substring that selects the handler of [line], with the
    pattern the handler then applies; the two handlers without a pattern
    ([_parse_safety_violation], [_parse_timing_report_start]) have no entry. *)
Definition extraction_pattern (line : string) : option regex :=
  if contains "Task completed" line then Some pat_task_completion
  else if contains "Simulation Time Elapsed" line then Some pat_simulation_time
  else if contains "Scheduler State" line then Some pat_scheduler_state
  else if contains "Context switch" line then Some pat_context_switch
  else if contains "EMERGENCY:" line then Some pat_emergency
  else None.

(** A line whose marker substring is present while the stricter pattern of
    its handler does not match. *)
Definition extraction_fails (line : string) : Prop :=
  exists r, extraction_pattern line = Some r /\ search r line = None.

(** The clock once a line has been classified: the seconds of the line when
    it is a time marker, the clock before it otherwise. *)
Definition clock_when (clock : Z) (ev : event) : Z :=
  match ev with
  | TimeMarker n => n
  | _ => clock
  end.

(** Every record that [f] builds carries the clock of its line. *)
Definition stamped (f : pyval -> Z -> event -> option record) : Prop :=
  forall ts clock ev r,
    f ts clock ev = Some r -> stamp r = Some (VInt (clock_when clock ev)).

(** What [self.tasks] holds after the run of [lines]. *)
Definition tasks_invariant (lines : list string) (s : ZephyrOutputParser) : Prop :=
  (forall name r, tasks s !! name = Some (TaskRecord r) <->
                  last_completion name lines = Some r) /\
  (forall name l, tasks s !! name = Some (FaultCycles l) ->
                  name = "fault_cycles" /\ l = collected fault_of lines /\ l <> []) /\
  (tasks s !! "fault_cycles" = None -> collected fault_of lines = []) /\
  dom (tasks s) =
    completed_names lines ∪
    (if existsb is_fault_line lines then {["fault_cycles"]} else ∅).

End Classifier.

(** ** Sample logs *)

Module Samples.
Import PyStr Re ParseOutput Classifier.

Definition marker_10 : string :=
  "[00:00:10.000,000] <inf> mission_critical: Simulation Time Elapsed: 10 seconds".
Definition marker_5 : string :=
  "[00:00:11.000,000] <inf> mission_critical: Simulation Time Elapsed: 5 seconds".
Definition navigation_3 : string :=
  "[00:00:10.050,000] <inf> mod: Navigation Task completed 3 cycles".
Definition navigation_4 : string :=
  "[00:00:10.090,000] <inf> mod: Navigation Task completed 4 cycles".
Definition emergency_line : string :=
  "[00:00:10.100,000] <err> critical_tasks: EMERGENCY: thruster fault".
Definition switch_line : string :=
  "[00:00:10.200,000] <dbg> timing_analysis: Context switch: 0x1a -> 0xff0 (total: 42)".
Definition fault_17 : string :=
  "[00:00:10.300,000] <inf> critical_tasks: FAULT: Detection cycle 17 - Thread 0xabc".
Definition fault_18 : string :=
  "[00:00:10.400,000] <inf> critical_tasks: FAULT: Detection cycle 18 - Thread 0xabc".
Definition chatter : string := "*** Booting Zephyr OS build v3.5.0 ***".
Definition truncated_completion : string := "<inf> mod: Navigation Task completed".

Definition sample_log : list string :=
  [marker_10; navigation_3; emergency_line; switch_line; fault_17; chatter;
   marker_5; navigation_4; fault_18].

(** The parser after [lines], [init] if the run raised. *)
Definition state_after (lines : list string) : ZephyrOutputParser :=
  match parse_lines init lines with
  | Returned s => s
  | Raised _ => init
  end.

End Samples.

(** ** Sample result files *)

Module Tables.
Import PyStr PyFloat PlotResults.



Definition row_full : csv_row :=
  list_to_map [("Scheduler", "EDF"); ("Load", "Light"); ("Threads", "4");
               ("Activations", "100"); ("Misses", "2"); ("MissRate", "2.0");
               ("AvgResponseTime", "12"); ("MaxResponseTime", "30");
               ("Jitter", "3"); ("ContextSwitches", "250");
               ("Preemptions", "40"); ("CSPerActivation", "2.5");
               ("OverheadPercent", "1.25"); ("Utilization", "0.5");
               ("NormalizedMissRate", "4.0")].

(** Loaded rows of one scheduler. *)
Definition edf_row (miss_rate : float) (misses max_response : Z) : Row :=
  {| columns := list_to_map [("Scheduler", "EDF"); ("Load", "Light")];
     Threads := 4; Activations := 100; Misses := misses; MissRate := miss_rate;
     AvgResponseTime := 12; MaxResponseTime := max_response; Jitter := 3;
     ContextSwitches := 250; Preemptions := 40; CSPerActivation := 2.5;
     OverheadPercent := 1.25; Utilization := 0.5; NormalizedMissRate := 4 |}.

(** A scenario with no activation, whose miss rate the harness could only
    print as [nan], and an ordinary one. *)
Definition file_row (activations misses miss_rate : string) : csv_row :=
  list_to_map [("Scheduler", "EDF"); ("Load", "Light"); ("Threads", "4");
               ("Activations", activations); ("Misses", misses);
               ("MissRate", miss_rate)].
Definition file_idle : csv_row := file_row "0" "0" "nan".
Definition file_busy : csv_row := file_row "100" "1" "1.0".


Definition loaded (rows : list csv_row) : list Row :=
  match load_csv rows with
  | Returned data => data
  | Raised _ => []
  end.

(** Two result rows that tie on every metric. *)
Definition summary_row (scheduler : string) : CompareSchedulers.result :=
  list_to_map [("scheduler", scheduler); ("workload", "Light");
               ("miss_rate_percent", "0.0"); ("avg_response_ms", "5.0");
               ("jitter_ms", "1.0")].



End Tables.

(** * Properties *)

(** ** The matcher finds only what the pattern describes *)

Module ReFacts.
Import PyStr Re.

Lemma str_app_nil (s : string) : "" ++ s = s.
Proof. reflexivity. Qed.

Lemma str_app_cons (c : ascii) (w s : string) : String c w ++ s = String c (w ++ s).
Proof. reflexivity. Qed.

Lemma str_length_app (w s : string) :
  String.length (w ++ s) = (String.length w + String.length s)%nat.
Proof.
  induction w as [|c w IH]; [reflexivity|].
  rewrite str_app_cons. simpl. now rewrite IH.
Qed.

Lemma str_app_assoc (a b c : string) : (a ++ b) ++ c = a ++ (b ++ c).
Proof.
  induction a as [|x a IH]; [reflexivity|].
  rewrite !str_app_cons. now rewrite IH.
Qed.

Lemma str_app_empty_r (a : string) : a ++ "" = a.
Proof.
  induction a as [|x a IH]; [reflexivity|].
  rewrite str_app_cons. now rewrite IH.
Qed.

Lemma substring_app (w s : string) : substring 0 (String.length w) (w ++ s) = w.
Proof.
  induction w as [|c w IH].
  - rewrite str_app_nil. now destruct s.
  - rewrite str_app_cons. simpl. now rewrite IH.
Qed.

Lemma consumed_app (w s : string) : consumed (w ++ s) s = w.
Proof.
  unfold consumed. rewrite str_length_app.
  replace (String.length w + String.length s - String.length s)%nat
    with (String.length w) by lia.
  apply substring_app.
Qed.

Lemma star_loop_sound (r : regex) (k : string -> captures -> option captures) :
  (forall s caps k' c, exec r s caps k' = Some c ->
     exists w s' caps', s = w ++ s' /\ matches r w caps caps' /\ k' s' caps' = Some c) ->
  forall fuel s caps c, star_loop (exec r) k fuel s caps = Some c ->
    exists w s' caps', s = w ++ s' /\ matches (Star r) w caps caps' /\ k s' caps' = Some c.
Proof.
  intros IHr fuel. induction fuel as [|fuel IH]; intros s caps c H; simpl in H.
  - exists "", s, caps. repeat split; [constructor | assumption].
  - destruct (exec r s caps _) as [c'|] eqn:E.
    + injection H as ->.
      apply IHr in E as (w1 & s1 & c1 & -> & Hm & Hk).
      destruct (String.length s1 <? String.length (w1 ++ s1))%nat; [|discriminate].
      apply IH in Hk as (w2 & s2 & c2 & -> & Hm2 & Hk).
      exists (w1 ++ w2), s2, c2. rewrite str_app_assoc.
      repeat split; [econstructor; eassumption | assumption].
    + exists "", s, caps. repeat split; [constructor | assumption].
Qed.

(** Soundness of the matcher: a success splits the input into the matched
    word and the rest handed to the continuation. *)
Lemma exec_sound (r : regex) :
  forall s caps k c, exec r s caps k = Some c ->
    exists w s' caps', s = w ++ s' /\ matches r w caps caps' /\ k s' caps' = Some c.
Proof.
  induction r as [|a|p|r1 IH1 r2 IH2|r IH|n r IH]; intros s caps k c H; simpl in H.
  - exists "", s, caps. repeat split; [constructor | assumption].
  - destruct s as [|a' s]; [discriminate|].
    destruct (Ascii.eqb a a') eqn:E; [|discriminate].
    apply Ascii.eqb_eq in E as <-.
    exists (String a ""), s, caps. repeat split; [constructor | assumption].
  - destruct s as [|a' s]; [discriminate|].
    destruct (p a') eqn:E; [|discriminate].
    exists (String a' ""), s, caps. repeat split; [now constructor | assumption].
  - apply IH1 in H as (w1 & s1 & c1 & -> & Hm1 & H).
    apply IH2 in H as (w2 & s2 & c2 & -> & Hm2 & H).
    exists (w1 ++ w2), s2, c2. rewrite str_app_assoc.
    repeat split; [econstructor; eassumption | assumption].
  - eapply star_loop_sound; eassumption.
  - apply IH in H as (w & s' & c1 & -> & Hm & H).
    rewrite consumed_app in H.
    exists w, s', (set_group n w c1). repeat split; [now constructor | assumption].
Qed.

Lemma match_at_sound (r : regex) (s : string) (c : captures) :
  match_at r s = Some c -> exists w s', s = w ++ s' /\ matches r w [] c.
Proof.
  unfold match_at. intros H.
  apply exec_sound in H as (w & s' & c' & -> & Hm & [= ->]). eauto.
Qed.

(** [re.search] returns the groups of a match of the pattern against a
    substring of the line. *)
Lemma search_sound (r : regex) (s : string) (c : captures) :
  search r s = Some c ->
  exists pre w post, s = pre ++ w ++ post /\ matches r w [] c.
Proof.
  induction s as [|a s IH]; simpl.
  - destruct (match_at r "") eqn:E; [|discriminate]. intros [= ->].
    apply match_at_sound in E as (w & s' & E & Hm).
    exists "", w, s'. split; [exact E | exact Hm].
  - destruct (match_at r (String a s)) eqn:E.
    + intros [= ->]. apply match_at_sound in E as (w & s' & E & Hm).
      exists "", w, s'. split; [exact E | exact Hm].
    + intros H. apply IH in H as (pre & w & post & -> & Hm).
      exists (String a pre), w, post. split; [reflexivity | exact Hm].
Qed.

Lemma matches_eps_inv w c0 c1 : matches Eps w c0 c1 -> w = "" /\ c1 = c0.
Proof. now inversion 1. Qed.

Lemma matches_chr_inv a w c0 c1 :
  matches (Chr a) w c0 c1 -> w = String a "" /\ c1 = c0.
Proof. now inversion 1. Qed.

Lemma matches_cls_inv p w c0 c1 :
  matches (Cls p) w c0 c1 -> exists a, w = String a "" /\ p a = true /\ c1 = c0.
Proof. inversion 1; subst. eauto. Qed.

Lemma matches_seq_inv r1 r2 w c0 c2 :
  matches (Seq r1 r2) w c0 c2 ->
  exists w1 w2 c1, w = w1 ++ w2 /\ matches r1 w1 c0 c1 /\ matches r2 w2 c1 c2.
Proof. inversion 1; subst. eauto 6. Qed.

Lemma matches_group_inv n r w c0 c :
  matches (Group n r) w c0 c -> exists c1, matches r w c0 c1 /\ c = set_group n w c1.
Proof. inversion 1; subst. eauto. Qed.

Lemma matches_lit_inv str : forall w c0 c1,
  matches (lit str) w c0 c1 -> w = str /\ c1 = c0.
Proof.
  induction str as [|a str IH]; intros w c0 c1 H; simpl in H.
  - now apply matches_eps_inv in H.
  - apply matches_seq_inv in H as (w1 & w2 & c' & -> & H1 & H2).
    apply matches_chr_inv in H1 as [-> ->].
    apply IH in H2 as [-> ->]. now rewrite str_app_cons, str_app_nil.
Qed.

(** A pattern without groups leaves the groups as they are. *)
Lemma nogroup_caps r w c0 c1 :
  matches r w c0 c1 -> nogroup r = true -> c1 = c0.
Proof.
  induction 1; simpl; intros Hn; try reflexivity.
  - apply andb_prop in Hn as [H1 H2].
    rewrite IHmatches2, IHmatches1 by assumption. reflexivity.
  - rewrite IHmatches2, IHmatches1 by assumption. reflexivity.
  - discriminate.
Qed.

Lemma forallb_str_app p (w1 w2 : string) :
  forallb_str p (w1 ++ w2) = forallb_str p w1 && forallb_str p w2.
Proof.
  induction w1 as [|a w1 IH]; [reflexivity|].
  rewrite str_app_cons. simpl. now rewrite IH, andb_assoc.
Qed.

Lemma matches_star_cls_inv p w c0 c1 :
  matches (Star (Cls p)) w c0 c1 -> forallb_str p w = true.
Proof.
  remember (Star (Cls p)) as r eqn:E. induction 1; try discriminate.
  - reflexivity.
  - injection E as ->.
    apply matches_cls_inv in H as (a & -> & Ha & _).
    rewrite str_app_cons, str_app_nil. simpl. rewrite Ha. now apply IHmatches2.
Qed.

(** [p+] matches a non-empty run of characters of the class. *)
Lemma matches_plus_cls_inv p w c0 c1 :
  matches (plus (Cls p)) w c0 c1 ->
  forallb_str p w = true /\ w <> "" /\ c1 = c0.
Proof.
  intros H. pose proof (nogroup_caps _ _ _ _ H eq_refl) as ->.
  apply matches_seq_inv in H as (w1 & w2 & c' & -> & H1 & H2).
  apply matches_cls_inv in H1 as (a & -> & Ha & _).
  apply matches_star_cls_inv in H2.
  rewrite str_app_cons, str_app_nil. simpl. rewrite Ha, H2. now repeat split.
Qed.

(** *** [int] of a run of digits *)

Lemma is_digit_not_space a : is_digit a = true -> is_space a = false.
Proof.
  unfold is_digit, is_space. intros H.
  apply andb_prop in H as [H1 H2].
  apply N.leb_le in H1. apply N.leb_le in H2.
  apply orb_false_intro; apply andb_false_intro2; apply N.leb_gt; lia.
Qed.

Lemma rstrip_digits w : forallb_str is_digit w = true -> rstrip w = w.
Proof.
  induction w as [|a w IH]; [reflexivity|]. simpl. intros H.
  apply andb_prop in H as [Ha Hw]. rewrite (IH Hw).
  destruct w; [|reflexivity]. now rewrite (is_digit_not_space _ Ha).
Qed.

Lemma strip_digits w : forallb_str is_digit w = true -> strip w = w.
Proof.
  intros H. unfold strip.
  replace (lstrip w) with w; [now apply rstrip_digits|].
  destruct w as [|a w]; [reflexivity|]. simpl in *.
  apply andb_prop in H as [Ha _]. now rewrite (is_digit_not_space _ Ha).
Qed.

Lemma digitpart_digits w : forall b acc,
  forallb_str is_digit w = true -> (w <> "" \/ b = true) ->
  digitpart b acc w = Some (digits_val acc w).
Proof.
  induction w as [|a w IH]; intros b acc H Hne; simpl in *.
  - destruct Hne as [Hne | ->]; [now elim Hne | reflexivity].
  - apply andb_prop in H as [Ha Hw]. rewrite Ha. apply IH; auto.
Qed.

Lemma py_int_digits w :
  forallb_str is_digit w = true -> w <> "" ->
  py_int w = Returned (digits_val 0 w).
Proof.
  intros H Hne. unfold py_int. rewrite (strip_digits _ H).
  destruct w as [|a w]; [now elim Hne|].
  assert (Ha : is_digit a = true) by (simpl in H; now apply andb_prop in H as [? _]).
  assert (E : digitpart false 0 (String a w) = Some (digits_val 0 (String a w)))
    by (apply digitpart_digits; auto).
  destruct a as [[] [] [] [] [] [] [] []]; try discriminate Ha; now rewrite E.
Qed.

End ReFacts.

(** ** One line: the handlers compute the classifier's reading *)

Module ParserFacts.
Import PyStr Re ParseOutput Classifier ReFacts.

Ltac inv_matches :=
  repeat match goal with
  | H : matches (lit _) _ _ _ |- _ => apply matches_lit_inv in H as [-> ->]
  | H : matches (plus (Cls _)) _ _ _ |- _ =>
      apply matches_plus_cls_inv in H as (? & ? & ->)
  | H : matches hexnum _ _ _ |- _ => apply nogroup_caps in H as ->; [|reflexivity]
  | H : matches Eps _ _ _ |- _ => apply matches_eps_inv in H as [-> ->]
  | H : matches (Group _ _) _ _ _ |- _ =>
      apply matches_group_inv in H as (? & H & ->)
  | H : matches (Seq _ _) _ _ _ |- _ =>
      apply matches_seq_inv in H as (? & ? & ? & -> & ? & ?)
  end.

Ltac groups_of H pat :=
  apply search_sound in H as (? & ? & ? & -> & H);
  unfold pat in H; cbn [cat fold_right] in H; inv_matches.

Ltac int_of_group :=
  cbn [group set_group Nat.eqb]; apply py_int_digits; assumption.

(** [int(match.group(i))] never raises: the group is a run of digits. *)
Lemma task_completion_count line m :
  search pat_task_completion line = Some m ->
  py_int (group m 2) = Returned (digits_val 0 (group m 2)).
Proof. intros H. groups_of H pat_task_completion. int_of_group. Qed.

Lemma simulation_time_seconds line m :
  search pat_simulation_time line = Some m ->
  py_int (group m 1) = Returned (digits_val 0 (group m 1)).
Proof. intros H. groups_of H pat_simulation_time. int_of_group. Qed.

Lemma scheduler_state_priority line m :
  search pat_scheduler_state line = Some m ->
  py_int (group m 2) = Returned (digits_val 0 (group m 2)).
Proof. intros H. groups_of H pat_scheduler_state. int_of_group. Qed.

Lemma context_switch_total line m :
  search pat_context_switch line = Some m ->
  py_int (group m 3) = Returned (digits_val 0 (group m 3)).
Proof. intros H. groups_of H pat_context_switch. int_of_group. Qed.

Lemma memory_analysis_task line m :
  search pat_memory_analysis line = Some m ->
  py_int (group m 1) = Returned (digits_val 0 (group m 1)).
Proof. intros H. groups_of H pat_memory_analysis. int_of_group. Qed.

Lemma fault_detection_cycle line m :
  search pat_fault_detection line = Some m ->
  py_int (group m 1) = Returned (digits_val 0 (group m 1)).
Proof. intros H. groups_of H pat_fault_detection. int_of_group. Qed.

(** The shape of a time-marker line. *)
Lemma simulation_time_shape line m :
  search pat_simulation_time line = Some m ->
  exists pre d post,
    line = pre ++ ("<inf> mission_critical: Simulation Time Elapsed: " ++ d
                   ++ " seconds") ++ post /\
    forallb_str is_digit d = true /\ d <> "" /\ group m 1 = d.
Proof.
  intros H. groups_of H pat_simulation_time.
  eexists _, _, _. split; [|split; [eassumption | split; [assumption|reflexivity]]].
  now rewrite str_app_empty_r.
Qed.

Lemma fault_cycles_step (self : ZephyrOutputParser) (r : record) :
  match
    match tasks self !! "fault_cycles" with
    | None => <["fault_cycles" := FaultCycles []]> (tasks self)
    | Some _ => tasks self
    end !! "fault_cycles"
  with
  | Some (FaultCycles l) =>
      Returned (with_tasks
                  (<["fault_cycles" := FaultCycles (l ++ [r])]>
                     match tasks self !! "fault_cycles" with
                     | None => <["fault_cycles" := FaultCycles []]> (tasks self)
                     | Some _ => tasks self
                     end) self)
  | Some (TaskRecord _) => Raised AttributeError
  | None => Raised (KeyError "fault_cycles")
  end =
  match tasks self !! "fault_cycles" with
  | None => Returned (with_tasks (<["fault_cycles" := FaultCycles [r]]> (tasks self)) self)
  | Some (FaultCycles l) =>
      Returned (with_tasks (<["fault_cycles" := FaultCycles (l ++ [r])]> (tasks self)) self)
  | Some (TaskRecord _) => Raised AttributeError
  end.
Proof.
  destruct (tasks self !! "fault_cycles") as [[?|l]|] eqn:E.
  - now rewrite E.
  - now rewrite E.
  - rewrite lookup_insert_eq, insert_insert_eq. reflexivity.
Qed.

(** [parse_line] is [classify] followed by [apply_event]: in particular no
    handler raises on the conversion of a captured number. *)
Lemma parse_line_classify (self : ZephyrOutputParser) (line : string) :
  parse_line self line =
  match classify line with
  | Some ev => apply_event self (timestamp_of line) ev
  | None => Returned self
  end.
Proof.
  unfold parse_line, classify.
  destruct (contains "Task completed" line).
  { unfold _parse_task_completion.
    destruct (search pat_task_completion line) as [m|] eqn:E; [|reflexivity].
    now rewrite (task_completion_count _ _ E). }
  destruct (contains "Simulation Time Elapsed" line).
  { unfold _parse_simulation_time.
    destruct (search pat_simulation_time line) as [m|] eqn:E; [|reflexivity].
    now rewrite (simulation_time_seconds _ _ E). }
  destruct (contains "Scheduler State" line).
  { unfold _parse_scheduler_state.
    destruct (search pat_scheduler_state line) as [m|] eqn:E; [|reflexivity].
    now rewrite (scheduler_state_priority _ _ E). }
  destruct (contains "Context switch" line).
  { unfold _parse_context_switch.
    destruct (search pat_context_switch line) as [m|] eqn:E; [|reflexivity].
    now rewrite (context_switch_total _ _ E). }
  destruct (contains "EMERGENCY:" line).
  { unfold _parse_emergency.
    now destruct (search pat_emergency line) as [m|] eqn:E. }
  destruct (contains "Safety violation detected" line); [reflexivity|].
  destruct (contains "TIMING ANALYSIS REPORT" line); [reflexivity|].
  unfold is_match.
  destruct (search pat_memory_analysis line) as [m|] eqn:E.
  { unfold _parse_memory_data. rewrite E.
    now rewrite (memory_analysis_task _ _ E). }
  destruct (search pat_fault_detection line) as [m|] eqn:E'; [|reflexivity].
  unfold _parse_fault_detection. rewrite E'.
  rewrite (fault_detection_cycle _ _ E'). cbn [mbind outcome_bind option_bind].
  unfold apply_event. apply fault_cycles_step.
Qed.

(** *** Runs *)

Lemma parse_lines_snoc (self : ZephyrOutputParser) (lines : list string) (line : string) :
  parse_lines self (lines ++ [line]) =
  (self' ← parse_lines self lines; parse_line self' line).
Proof.
  revert self. induction lines as [|l lines IH]; intros self; simpl.
  - now destruct (parse_line self line).
  - destruct (parse_line self l) as [s1|e]; simpl; [apply IH | reflexivity].
Qed.

Lemma parse_lines_snoc_inv (lines : list string) (line : string) s' :
  parse_lines init (lines ++ [line]) = Returned s' ->
  exists s, parse_lines init lines = Returned s /\
            match classify line with
            | Some ev => apply_event s (timestamp_of line) ev
            | None => Returned s
            end = Returned s'.
Proof.
  rewrite parse_lines_snoc. destruct (parse_lines init lines) as [s|e]; simpl.
  - rewrite parse_line_classify. eauto.
  - discriminate.
Qed.

Lemma splits_snoc (lines : list string) : forall pre line,
  splits pre (lines ++ [line]) = (splits pre lines ++ [(pre ++ lines, line)])%list.
Proof.
  induction lines as [|l lines IH]; intros pre line; simpl.
  - now rewrite app_nil_r.
  - rewrite IH. now rewrite <- app_assoc.
Qed.

Lemma collected_snoc f (lines : list string) (line : string) :
  collected f (lines ++ [line]) =
  (collected f lines ++
   match classify line with
   | Some ev => option_list (f (timestamp_of line) (last_marker lines) ev)
   | None => []
   end)%list.
Proof.
  unfold collected. rewrite splits_snoc, omap_app. f_equal. simpl.
  destruct (classify line) as [ev|]; simpl; [|reflexivity].
  now destruct (f _ _ ev).
Qed.

Lemma last_marker_snoc (lines : list string) (line : string) :
  last_marker (lines ++ [line]) =
  match classify line with
  | Some (TimeMarker n) => n
  | _ => last_marker lines
  end.
Proof. unfold last_marker. now rewrite fold_left_app. Qed.

Lemma last_completion_snoc name (lines : list string) (line : string) :
  last_completion name (lines ++ [line]) =
  match classify line with
  | Some (TaskCompletion n count unit) =>
      if String.eqb n name
      then Some (completion_record count unit (timestamp_of line))
      else last_completion name lines
  | _ => last_completion name lines
  end.
Proof. unfold last_completion. now rewrite fold_left_app. Qed.

Lemma completed_names_snoc (lines : list string) (line : string) :
  completed_names (lines ++ [line]) =
  completed_names lines ∪
  match classify line with
  | Some (TaskCompletion n _ _) => {[n]}
  | _ => ∅
  end.
Proof.
  unfold completed_names. rewrite omap_app, list_to_set_app_L. f_equal. simpl.
  destruct (classify line) as [[]|]; simpl; rewrite ?union_empty_r_L; reflexivity.
Qed.

(** The clock and the five lists after a run, read off the lines. *)
Lemma run_lists (lines : list string) : forall s,
  parse_lines init lines = Returned s ->
  simulation_time s = last_marker lines /\
  timing_data s = collected timing_of lines /\
  scheduler_events s = collected scheduler_of lines /\
  memory_data s = collected memory_of lines /\
  emergency_events s = collected emergency_of lines /\
  safety_violations s = collected safety_of lines.
Proof.
  induction lines as [|line lines IH] using rev_ind; intros s' H.
  - injection H as <-. now repeat split.
  - apply parse_lines_snoc_inv in H as (s & Hs & H).
    destruct (IH s Hs) as (Hc & Ht & Hsc & Hm & He & Hv).
    rewrite last_marker_snoc, !collected_snoc.
    destruct (classify line) as [ev|].
    + destruct ev; simpl in H;
        try (destruct (tasks s !! "fault_cycles") as [[?|?]|]; [discriminate| |]);
        injection H as <-; simpl;
        rewrite ?app_nil_r, ?Hc; repeat split; congruence.
    + injection H as <-. rewrite !app_nil_r. now repeat split.
Qed.

Lemma existsb_snoc {A} (f : A -> bool) (l : list A) (x : A) :
  existsb f (l ++ [x]) = existsb f l || f x.
Proof. rewrite existsb_app. simpl. now rewrite orb_false_r. Qed.

Lemma tasks_invariant_keep lines line s s' :
  tasks_invariant lines s -> tasks s' = tasks s ->
  match classify line with
  | Some (TaskCompletion _ _ _) | Some (FaultCycle _ _) => False
  | _ => True
  end ->
  tasks_invariant (lines ++ [line]) s'.
Proof.
  intros (Ha & Hb & Hc & Hd) E Hev. unfold tasks_invariant. rewrite E.
  rewrite collected_snoc, completed_names_snoc, existsb_snoc.
  assert (El : forall name, last_completion name (lines ++ [line]) =
                            last_completion name lines).
  { intros name. rewrite last_completion_snoc. revert Hev.
    now destruct (classify line) as [[]|]. }
  assert (Ef : is_fault_line line = false).
  { unfold is_fault_line. revert Hev. now destruct (classify line) as [[]|]. }
  rewrite Ef, orb_false_r.
  revert Hev. destruct (classify line) as [[]|]; intros Hev; try contradiction;
    simpl; rewrite app_nil_r, union_empty_r_L;
    (split; [intros; rewrite El; apply Ha | split; [exact Hb | split; [exact Hc | exact Hd]]]).
Qed.

Lemma run_tasks (lines : list string) : forall s,
  parse_lines init lines = Returned s -> tasks_invariant lines s.
Proof.
  induction lines as [|line lines IH] using rev_ind; intros s' H.
  - injection H as <-. unfold tasks_invariant. simpl.
    repeat split; intros; simplify_map_eq; try done.
  - apply parse_lines_snoc_inv in H as (s & Hs & H).
    pose proof (run_lists _ _ Hs) as (Hclock & _).
    specialize (IH s Hs).
    destruct (classify line) as [ev|] eqn:Ecl;
      [|injection H as <-; eapply tasks_invariant_keep; eauto; now rewrite Ecl].
    destruct ev; simpl in H;
      try (injection H as <-; eapply tasks_invariant_keep; eauto; now rewrite Ecl).
    + (* a task completion overwrites the entry of its name *)
      injection H as <-. destruct IH as (Ha & Hb & Hc & Hd).
      unfold tasks_invariant. simpl.
      rewrite collected_snoc, completed_names_snoc, existsb_snoc.
      unfold is_fault_line at 2. rewrite Ecl. simpl.
      rewrite app_nil_r, orb_false_r.
      repeat split.
      * intros Hl. rewrite last_completion_snoc, Ecl.
        destruct (String.eqb_spec task_name name) as [->|Hne].
        -- rewrite lookup_insert_eq in Hl. congruence.
        -- rewrite lookup_insert_ne in Hl by assumption. now apply Ha.
      * rewrite last_completion_snoc, Ecl.
        destruct (String.eqb_spec task_name name) as [->|Hne].
        -- rewrite lookup_insert_eq. congruence.
        -- rewrite lookup_insert_ne by assumption. now apply Ha.
      * destruct (decide (task_name = name)) as [->|Hne].
        -- rewrite lookup_insert_eq in H. discriminate.
        -- rewrite lookup_insert_ne in H by assumption. now apply Hb in H.
      * destruct (decide (task_name = name)) as [->|Hne].
        -- rewrite lookup_insert_eq in H. discriminate.
        -- rewrite lookup_insert_ne in H by assumption. now apply Hb in H.
      * destruct (decide (task_name = name)) as [->|Hne].
        -- rewrite lookup_insert_eq in H. discriminate.
        -- rewrite lookup_insert_ne in H by assumption. now apply Hb in H.
      * intros Hl. destruct (decide (task_name = "fault_cycles")) as [->|Hne].
        -- rewrite lookup_insert_eq in Hl. discriminate.
        -- rewrite lookup_insert_ne in Hl by assumption. now apply Hc.
      * rewrite dom_insert_L, Hd. set_solver.
    + (* a fault line appends to the list under 'fault_cycles' *)
      destruct IH as (Ha & Hb & Hc & Hd).
      assert (Hnew : forall l0,
        (tasks s !! "fault_cycles" = None /\ l0 = [] \/
         tasks s !! "fault_cycles" = Some (FaultCycles l0)) ->
        tasks_invariant (lines ++ [line])
          (with_tasks (<["fault_cycles" :=
                          FaultCycles (l0 ++ [fault_record (timestamp_of line) cycle
                                                thread_id (simulation_time s)])]>
                         (tasks s)) s)).
      { intros l0 Hl0. unfold tasks_invariant. simpl.
        rewrite collected_snoc, completed_names_snoc, existsb_snoc.
        unfold is_fault_line at 2. rewrite Ecl. simpl.
        rewrite orb_true_r, union_empty_r_L, Hclock.
        assert (El0 : l0 = collected fault_of lines).
        { destruct Hl0 as [[Hn ->]|Hl0]; [now rewrite Hc | now apply Hb in Hl0]. }
        assert (Hnot : forall r, tasks s !! "fault_cycles" <> Some (TaskRecord r)).
        { intros r. destruct Hl0 as [[Hn _]|Hl0]; congruence. }
        repeat split.
        - intros Hl. rewrite last_completion_snoc, Ecl.
          destruct (decide (name = "fault_cycles")) as [->|Hne].
          + rewrite lookup_insert_eq in Hl. discriminate.
          + rewrite lookup_insert_ne in Hl by congruence. now apply Ha.
        - rewrite last_completion_snoc, Ecl. intros Hl.
          destruct (decide (name = "fault_cycles")) as [->|Hne].
          + apply Ha in Hl. now elim (Hnot r).
          + rewrite lookup_insert_ne by congruence. now apply Ha.
        - destruct (decide (name = "fault_cycles")) as [->|Hne]; [reflexivity|].
          rewrite lookup_insert_ne in H0 by congruence. now apply Hb in H0.
        - destruct (decide (name = "fault_cycles")) as [->|Hne].
          + rewrite lookup_insert_eq in H0. injection H0 as <-. now rewrite El0.
          + rewrite lookup_insert_ne in H0 by congruence.
            apply Hb in H0 as (? & _). contradiction.
        - destruct (decide (name = "fault_cycles")) as [->|Hne].
          + rewrite lookup_insert_eq in H0. injection H0 as <-.
            now destruct l0.
          + rewrite lookup_insert_ne in H0 by congruence.
            apply Hb in H0 as (? & _). contradiction.
        - rewrite lookup_insert_eq. discriminate.
        - rewrite dom_insert_L, Hd.
          destruct (existsb is_fault_line lines); set_solver. }
      destruct (tasks s !! "fault_cycles") as [[r0|l0]|] eqn:Efc.
      * discriminate.
      * injection H as <-. apply Hnew. now right.
      * injection H as <-. apply (Hnew []). now left.
Qed.

End ParserFacts.

(** ** The parser: the claims *)

Module ParserClaims.
Import PyStr Re ParseOutput Classifier ReFacts ParserFacts Samples.

Lemma stamped_builders :
  stamped timing_of /\ stamped scheduler_state_of /\ stamped memory_of /\
  stamped emergency_of /\ stamped safety_of /\ stamped fault_of.
Proof.
  repeat split; intros ts clock ev r H; destruct ev; simpl in H;
    try discriminate; injection H as <-; reflexivity.
Qed.

Lemma filter_omap {A B : Type} (P : B -> Prop) `{!forall x, Decision (P x)}
    (g g' : A -> option B) (L : list A) :
  (forall x, g' x = r ← g x; if decide (P r) then Some r else None) ->
  filter P (omap g L) = omap g' L.
Proof.
  intros Hg. induction L as [|x L IH]; [reflexivity|].
  cbn [omap list_omap]. rewrite (Hg x).
  destruct (g x) as [r|]; simpl; [|exact IH].
  destruct (decide (P r)).
  - rewrite filter_cons_True by assumption. now rewrite IH.
  - rewrite filter_cons_False by assumption. exact IH.
Qed.

Lemma filter_scheduler_state (lines : list string) :
  filter (fun r => has_key "current_thread" r = true) (collected scheduler_of lines)
  = collected scheduler_state_of lines.
Proof.
  unfold collected. apply filter_omap. intros [pre line].
  destruct (classify line) as [[]|]; reflexivity.
Qed.

Lemma apply_event_prefix s ts ev s' :
  apply_event s ts ev = Returned s' ->
  timing_data s `prefix_of` timing_data s' /\
  scheduler_events s `prefix_of` scheduler_events s' /\
  memory_data s `prefix_of` memory_data s' /\
  emergency_events s `prefix_of` emergency_events s' /\
  safety_violations s `prefix_of` safety_violations s'.
Proof.
  destruct ev; simpl; intros H;
    try (destruct (tasks s !! "fault_cycles") as [[?|?]|]; [discriminate| |]);
    injection H as <-; simpl; repeat split;
    first [reflexivity | apply prefix_app_r; reflexivity].
Qed.

Lemma parse_lines_prefix (more : list string) : forall s s',
  parse_lines s more = Returned s' ->
  timing_data s `prefix_of` timing_data s' /\
  scheduler_events s `prefix_of` scheduler_events s' /\
  memory_data s `prefix_of` memory_data s' /\
  emergency_events s `prefix_of` emergency_events s' /\
  safety_violations s `prefix_of` safety_violations s'.
Proof.
  induction more as [|line more IH]; intros s s' H; simpl in H.
  - injection H as <-. now repeat split.
  - rewrite parse_line_classify in H.
    assert (exists s1, parse_lines s1 more = Returned s' /\
              (timing_data s `prefix_of` timing_data s1 /\
               scheduler_events s `prefix_of` scheduler_events s1 /\
               memory_data s `prefix_of` memory_data s1 /\
               emergency_events s `prefix_of` emergency_events s1 /\
               safety_violations s `prefix_of` safety_violations s1))
      as (s1 & H1 & P1 & P2 & P3 & P4 & P5).
    { destruct (classify line) as [ev|].
      - destruct (apply_event s (timestamp_of line) ev) as [s1|e] eqn:E;
          [|discriminate].
        exists s1. split; [exact H | now apply apply_event_prefix in E].
      - exists s. split; [exact H | now repeat split]. }
    apply IH in H1 as (Q1 & Q2 & Q3 & Q4 & Q5).
    repeat split; etrans; eassumption.
Qed.

(** C1 (as amended).  After any run that returns, the lists of time
    markers and timing reports, of scheduler states, of memory samples, of
    emergencies, of safety violations and of fault cycles hold, in input
    order, exactly one record per classified line of their kind, and each of
    these records carries the simulation clock of the moment its line was
    classified: the seconds of the most recent time marker up to and
    including the line, 0 when there is none.  Lines parsed afterwards only
    append: no stored record is changed. *)
Theorem stamped_records_carry_the_clock (lines : list string) (s : ZephyrOutputParser) :
  parse_lines init lines = Returned s ->
  (timing_data s = collected timing_of lines /\
   filter (fun r => has_key "current_thread" r = true) (scheduler_events s)
     = collected scheduler_state_of lines /\
   memory_data s = collected memory_of lines /\
   emergency_events s = collected emergency_of lines /\
   safety_violations s = collected safety_of lines /\
   (forall l, tasks s !! "fault_cycles" = Some (FaultCycles l) ->
              l = collected fault_of lines)) /\
  (stamped timing_of /\ stamped scheduler_state_of /\ stamped memory_of /\
   stamped emergency_of /\ stamped safety_of /\ stamped fault_of) /\
  (forall more s', parse_lines s more = Returned s' ->
     timing_data s `prefix_of` timing_data s' /\
     scheduler_events s `prefix_of` scheduler_events s' /\
     memory_data s `prefix_of` memory_data s' /\
     emergency_events s `prefix_of` emergency_events s' /\
     safety_violations s `prefix_of` safety_violations s').
Proof.
  intros H.
  pose proof (run_lists _ _ H) as (_ & Ht & Hsc & Hm & He & Hv).
  pose proof (run_tasks _ _ H) as (_ & Hb & _).
  split; [|split; [exact stamped_builders | intros more s'; apply parse_lines_prefix]].
  repeat split; try assumption.
  - rewrite Hsc. apply filter_scheduler_state.
  - intros l Hl. now apply Hb in Hl.
Qed.

(** On the sample log. *)
Lemma stamped_records_witness :
  parse_lines init sample_log = Returned (state_after sample_log) /\
  emergency_events (state_after sample_log) = collected emergency_of sample_log /\
  stamped emergency_of.
Proof.
  assert (H : parse_lines init sample_log = Returned (state_after sample_log))
    by (vm_compute; reflexivity).
  split; [exact H|].
  destruct (stamped_records_carry_the_clock sample_log (state_after sample_log) H)
    as ((_ & _ & _ & He & _) & (_ & _ & _ & Hs & _) & _).
  split; [exact He | exact Hs].
Defined.

(** C1, as stated, fails: a task-completion record holds the count, the
    unit and the wall-clock completion time, and no simulation time, although
    the clock stands at 10 when the line is classified. *)
Lemma completion_record_has_no_clock :
  parse_lines init [marker_10; navigation_3]
    = Returned (state_after [marker_10; navigation_3]) /\
  simulation_time (state_after [marker_10; navigation_3]) = 10 /\
  tasks (state_after [marker_10; navigation_3]) !! "Navigation"
    = Some (TaskRecord [("count", VInt 3); ("unit", VStr "cycles");
                        ("completion_time", VStr "00:00:10.050,000")]) /\
  stamp [("count", VInt 3); ("unit", VStr "cycles");
         ("completion_time", VStr "00:00:10.050,000")] = None.
Proof. vm_compute. repeat split. Qed.

(** A context-switch record has no simulation time either. *)
Example context_switch_record_has_no_clock :
  parse_lines init [marker_10; switch_line] = Returned (state_after [marker_10; switch_line]) /\
  scheduler_events (state_after [marker_10; switch_line])
    = [context_switch_record (VStr "00:00:10.200,000") "0x1a" "0xff0" 42] /\
  stamp (context_switch_record (VStr "00:00:10.200,000") "0x1a" "0xff0" 42) = None.
Proof. vm_compute. repeat split. Qed.

(** *** The clock *)

Lemma classify_time_marker line n :
  classify line = Some (TimeMarker n) ->
  exists m, search pat_simulation_time line = Some m /\ n = digits_val 0 (group m 1).
Proof.
  unfold classify, is_match.
  repeat match goal with
  | |- context [if ?b then _ else _] => destruct b
  | |- context [search ?p line] => destruct (search p line) as [?m|]
  end; simpl; intros [=]; subst; eauto.
Qed.

(** C2.  The clock is 0 in [init].  A line classified as a time marker
    contains [Simulation Time Elapsed: d seconds] for a run of digits [d] and
    sets the clock to the integer [d] denotes, whatever the clock was; every
    other line leaves the clock as it is (the only line that can raise is a
    fault line, and then no state is produced). *)
Theorem clock_set_only_by_time_markers (self : ZephyrOutputParser) (line : string) :
  simulation_time init = 0 /\
  match classify line with
  | Some (TimeMarker n) =>
      (exists s', parse_line self line = Returned s' /\ simulation_time s' = n) /\
      (exists pre d post,
          line = pre ++ ("<inf> mission_critical: Simulation Time Elapsed: " ++ d
                         ++ " seconds") ++ post /\
          forallb_str is_digit d = true /\ d <> "" /\ n = digits_val 0 d)
  | _ =>
      parse_line self line = Raised AttributeError \/
      exists s', parse_line self line = Returned s' /\
                 simulation_time s' = simulation_time self
  end.
Proof.
  split; [reflexivity|]. rewrite parse_line_classify.
  destruct (classify line) as [ev|] eqn:E; [|right; eauto].
  destruct ev; simpl; try (right; eexists; split; reflexivity).
  - split; [eexists; split; reflexivity|].
    apply classify_time_marker in E as (m & Hm & ->).
    apply simulation_time_shape in Hm as (pre & d & post & -> & Hd & Hne & ->).
    eauto 8.
  - destruct (tasks self !! "fault_cycles") as [[?|?]|];
      [left; reflexivity | right; eexists; split; reflexivity..].
Qed.

(** At a marker that goes backwards, from 10 to 5. *)
Lemma clock_witness :
  exists s', parse_line (state_after [marker_10]) marker_5 = Returned s' /\
             simulation_time s' = 5.
Proof.
  destruct (clock_set_only_by_time_markers (state_after [marker_10]) marker_5) as [_ H].
  assert (E : classify marker_5 = Some (TimeMarker 5)) by (vm_compute; reflexivity).
  rewrite E in H. exact (proj1 H).
Defined.

(** The clock follows a marker that goes backwards. *)
Example clock_regression :
  parse_lines init [marker_10; marker_5] = Returned (state_after [marker_10; marker_5]) /\
  simulation_time (state_after [marker_10]) = 10 /\
  simulation_time (state_after [marker_10; marker_5]) = 5.
Proof. vm_compute. repeat split. Qed.

(** *** Lines that yield nothing *)

(** C3.  A line that no line-shape predicate accepts, and a line whose
    marker substring is present while the pattern of its handler does not
    match, yield no event: [parse_line] returns normally with the parser
    exactly as it was. *)
Theorem unmatched_lines_change_nothing (self : ZephyrOutputParser) (line : string) :
  unrecognized line \/ extraction_fails line ->
  classify line = None /\ parse_line self line = Returned self.
Proof.
  intros H.
  assert (E : classify line = None).
  { unfold classify. destruct H as [H | (r & Hr & Hs)].
    - destruct H as (-> & -> & -> & -> & -> & -> & -> & -> & ->). reflexivity.
    - unfold extraction_pattern in Hr.
      repeat match type of Hr with
      | (if ?b then _ else _) = _ => destruct b
      end; try discriminate; injection Hr as <-; now rewrite Hs. }
  split; [exact E|]. now rewrite parse_line_classify, E.
Qed.

(** On a line of boot chatter and on a completion line cut short. *)
Lemma unmatched_lines_witness :
  parse_line (state_after sample_log) chatter = Returned (state_after sample_log) /\
  parse_line (state_after sample_log) truncated_completion
    = Returned (state_after sample_log).
Proof.
  split.
  - apply (unmatched_lines_change_nothing (state_after sample_log) chatter).
    left. vm_compute. repeat split.
  - apply (unmatched_lines_change_nothing (state_after sample_log) truncated_completion).
    right. exists pat_task_completion. split; [reflexivity | vm_compute; reflexivity].
Defined.

(** *** Task completions *)




(** *** Fault cycles *)







(** *** The summary *)

(** C10.  After a run with at least one fault line, [self.tasks] has the
    key [fault_cycles] besides the names of the completed tasks, and it is
    this mapping that the summary counts and exports as [task_performance]
    and that [export_json] writes again as [tasks]: [total_tasks] is the
    number of distinct completed names plus one, unless a task is itself
    named [fault_cycles], which shares the entry. *)
Theorem total_tasks_counts_fault_cycles (lines : list string) (s : ZephyrOutputParser) :
  parse_lines init lines = Returned s ->
  existsb is_fault_line lines = true ->
  task_performance (get_summary s) = tasks s /\
  x_tasks (export_json s) = tasks s /\
  task_performance (x_summary (export_json s)) = tasks s /\
  dom (tasks s) = completed_names lines ∪ {["fault_cycles"]} /\
  total_tasks (get_summary s)
    = (size (completed_names lines ∖ {["fault_cycles"]}) + 1)%nat /\
  ("fault_cycles" ∉ completed_names lines ->
     total_tasks (get_summary s) = (size (completed_names lines) + 1)%nat) /\
  ("fault_cycles" ∈ completed_names lines ->
     total_tasks (get_summary s) = size (completed_names lines)).
Proof.
  intros H Hf. destruct (run_tasks _ _ H) as (_ & _ & _ & Hd). rewrite Hf in Hd.
  assert (Hsize : total_tasks (get_summary s)
                  = size (completed_names lines ∪ {["fault_cycles"]})).
  { simpl. now rewrite <- Hd, size_dom. }
  repeat split; try reflexivity; try exact Hd.
  - rewrite Hsize. rewrite <- (size_singleton (C := gset string) "fault_cycles").
    rewrite <- size_union by set_solver. f_equal.
    apply set_eq. intros x. destruct (decide (x = "fault_cycles")); set_solver.
  - intros Hn. rewrite Hsize, size_union by set_solver.
    now rewrite size_singleton.
  - intros Hin. rewrite Hsize. f_equal. set_solver.
Qed.

(** On the sample log: one completed name, two fault lines. *)
Lemma total_tasks_witness :
  parse_lines init sample_log = Returned (state_after sample_log) /\
  existsb is_fault_line sample_log = true /\
  total_tasks (get_summary (state_after sample_log))
    = (size (completed_names sample_log) + 1)%nat.
Proof.
  assert (H : parse_lines init sample_log = Returned (state_after sample_log))
    by (vm_compute; reflexivity).
  assert (Hf : existsb is_fault_line sample_log = true) by (vm_compute; reflexivity).
  split; [exact H|]. split; [exact Hf|].
  apply (total_tasks_counts_fault_cycles _ _ H Hf).
  vm_compute. intros [=].
Defined.

End ParserClaims.

(** ** Order on floats *)

Module FloatFacts.
Import PyFloat.

Ltac sf_compare :=
  repeat match goal with
  | H : context [Pos.compare_cont Eq ?a ?b] |- _ =>
      change (Pos.compare_cont Eq a b) with (Pos.compare a b) in H
  | |- context [Pos.compare_cont Eq ?a ?b] =>
      change (Pos.compare_cont Eq a b) with (Pos.compare a b)
  end;
  repeat match goal with
  | H : context [Z.compare ?a ?b] |- _ => destruct (Z.compare_spec a b); simpl in H
  | H : context [Pos.compare ?a ?b] |- _ => destruct (Pos.compare_spec a b); simpl in H
  | |- context [Z.compare ?a ?b] => destruct (Z.compare_spec a b); simpl
  | |- context [Pos.compare ?a ?b] => destruct (Pos.compare_spec a b); simpl
  end;
  try discriminate; try reflexivity; try lia.

Ltac sf_cases3 x y z :=
  destruct x as [[]|[]| |[] ?mx ?ex], y as [[]|[]| |[] ?my ?ey],
           z as [[]|[]| |[] ?mz ?ez];
  simpl; try discriminate; try reflexivity.

Lemma SFleb_ltb_trans x y z :
  SFleb x y = true -> SFltb y z = true -> SFltb x z = true.
Proof. unfold SFleb, SFltb. sf_cases3 x y z; intros H1 H2; sf_compare. Qed.

Lemma SFltb_leb_trans x y z :
  SFltb x y = true -> SFleb y z = true -> SFltb x z = true.
Proof. unfold SFleb, SFltb. sf_cases3 x y z; intros H1 H2; sf_compare. Qed.

Lemma SFltb_leb x y : SFltb x y = true -> SFleb x y = true.
Proof. unfold SFleb, SFltb. destruct (SFcompare x y) as [[]|]; congruence. Qed.

Lemma SFltb_not_leb x y : SFltb x y = true -> SFleb y x = false.
Proof.
  unfold SFleb, SFltb.
  destruct x as [[]|[]| |[] mx ex], y as [[]|[]| |[] my ey];
    simpl; try discriminate; try reflexivity; intros H1; sf_compare.
Qed.

Lemma SFltb_total x y :
  SFordinary x = true -> SFordinary y = true ->
  SFltb x y = true \/ x = y \/ SFltb y x = true.
Proof.
  unfold SFltb.
  destruct x as [[]|[]| |[] mx ex], y as [[]|[]| |[] my ey];
    simpl; try discriminate; intros _ _; auto; sf_compare; subst; auto.
Qed.

Lemma ordinary_spec x : ordinary x = true -> SFordinary (Prim2SF x) = true.
Proof.
  unfold ordinary, Prim2SF. intros H.
  apply andb_prop in H as [Hn Hz].
  apply negb_true_iff in Hn. apply negb_true_iff in Hz. rewrite Hn.
  destruct (is_zero x); [simpl in Hz; now rewrite Hz|].
  destruct (is_infinity x); [now destruct (get_sign x)|].
  destruct (Z.frexp x) as [r e].
  destruct (shr_fexp prec emax _ _ _) as [shr e'].
  now destruct (shr_m shr).
Qed.

(** [<] and [<=] on floats, NaN included. *)
Lemma lt_trans x y z : lt x y = true -> lt y z = true -> lt x z = true.
Proof.
  unfold lt. rewrite !ltb_spec. intros H1 H2.
  eapply SFleb_ltb_trans; [apply SFltb_leb|]; eassumption.
Qed.


Lemma lt_le_trans x y z : lt x y = true -> le y z = true -> lt x z = true.
Proof. unfold lt, le. rewrite !ltb_spec, leb_spec. apply SFltb_leb_trans. Qed.

Lemma lt_not_le x y : lt x y = true -> le y x = false.
Proof. unfold lt, le. rewrite ltb_spec, leb_spec. apply SFltb_not_leb. Qed.

Lemma le_not_lt x y : le x y = true -> lt y x = false.
Proof.
  intros H. destruct (lt y x) eqn:E; [|reflexivity].
  apply lt_not_le in E. congruence.
Qed.

Lemma lt_irrefl x : lt x x = false.
Proof.
  destruct (lt x x) eqn:E; [|reflexivity].
  pose proof (lt_not_le _ _ E) as H.
  unfold lt, le in *. rewrite ltb_spec in E. rewrite leb_spec in H.
  apply SFltb_leb in E. congruence.
Qed.

Lemma lt_total x y :
  ordinary x = true -> ordinary y = true ->
  lt x y = true \/ x = y \/ lt y x = true.
Proof.
  intros Hx Hy. unfold lt. rewrite !ltb_spec.
  destruct (SFltb_total _ _ (ordinary_spec _ Hx) (ordinary_spec _ Hy))
    as [H | [H | H]]; auto.
  right. left. now apply Prim2SF_inj.
Qed.

End FloatFacts.

(** ** [max] and [min] do not depend on the order of a list in which the
    comparison is a strict total order *)

Module MaxFacts.
Import PyFloat.

Section Extremum.
Context {A : Type} (better : A -> A -> bool) (P : A -> Prop).
Hypothesis better_irrefl : forall x, better x x = false.
Hypothesis better_trans :
  forall x y z, better x y = true -> better y z = true -> better x z = true.
Hypothesis better_total :
  forall x y, P x -> P y -> better x y = true \/ x = y \/ better y x = true.

Lemma fold_best (rest : list A) : forall best,
  let m := fold_left (fun b y => if better y b then y else b) rest best in
  In m (best :: rest) /\
  (forall x, better x best = false -> better x m = false) /\
  (forall x, In x rest -> better x m = false).
Proof.
  induction rest as [|y rest IH]; intros best; simpl.
  - repeat split; auto. intros x [].
  - destruct (better y best) eqn:E.
    + destruct (IH y) as (Hin & Hkeep & Hall). simpl in *.
      repeat split.
      * destruct Hin as [<- | Hin]; auto.
      * intros x Hx. apply Hkeep.
        destruct (better x y) eqn:Exy; [|reflexivity].
        rewrite (better_trans _ _ _ Exy E) in Hx. discriminate.
      * intros x [<- | Hx]; [apply Hkeep, better_irrefl | now apply Hall].
    + destruct (IH best) as (Hin & Hkeep & Hall). simpl in *.
      repeat split.
      * destruct Hin as [<- | Hin]; auto.
      * exact Hkeep.
      * intros x [<- | Hx]; [now apply Hkeep | now apply Hall].
Qed.

Lemma max_of_spec (xs : list A) (m : A) :
  max_of better xs = Some m ->
  In m xs /\ forall x, In x xs -> better x m = false.
Proof.
  destruct xs as [|x0 rest]; [discriminate|]. simpl. intros [= <-].
  destruct (fold_best rest x0) as (Hin & Hkeep & Hall).
  split; [exact Hin|].
  intros x [<- | Hx]; [apply Hkeep, better_irrefl | now apply Hall].
Qed.

Lemma max_of_perm (xs ys : list A) :
  xs ≡ₚ ys -> Forall P xs -> max_of better xs = max_of better ys.
Proof.
  intros Hp HP.
  destruct (max_of better xs) as [m|] eqn:Ex, (max_of better ys) as [m'|] eqn:Ey.
  - apply max_of_spec in Ex as (Hin & Hmax). apply max_of_spec in Ey as (Hin' & Hmax').
    assert (Hm' : In m' xs) by (eapply Permutation_in; [symmetry|]; eassumption).
    assert (Hm : In m ys) by (eapply Permutation_in; eassumption).
    rewrite Forall_forall in HP.
    destruct (better_total m m') as [H | [H | H]].
    + apply HP. now apply list_elem_of_In.
    + apply HP. now apply list_elem_of_In.
    + rewrite (Hmax' _ Hm) in H. discriminate.
    + now subst.
    + rewrite (Hmax _ Hm') in H. discriminate.
  - destruct ys; [|discriminate]. apply Permutation_nil_r in Hp. now subst.
  - destruct xs; [|discriminate]. apply Permutation_nil_l in Hp. now subst.
  - reflexivity.
Qed.

End Extremum.

End MaxFacts.

(** ** The loader and the report: the claims *)

Module PlotClaims.
Import PyStr PyFloat PlotResults FloatFacts MaxFacts Tables.

(** *** [load_csv] *)


Lemma py_int_raises v e : py_int v = Raised e -> e = ValueError.
Proof. unfold py_int. destruct (match strip v with "" => _ | _ => _ end); congruence. Qed.

Lemma py_float_raises v e : py_float v = Raised e -> e = ValueError.
Proof.
  unfold py_float.
  destruct (match strip v with "" => _ | _ => _ end) as [neg body].
  repeat match goal with |- context [if ?b then _ else _] => destruct b end;
    try congruence.
  all: destruct (decimal body) as [[m x]|]; congruence.
Qed.







Lemma item_int_raised row k e :
  (item row k ≫= py_int) = Raised e ->
  e = ValueError \/ row !! k = None /\ e = KeyError k.
Proof.
  unfold item. destruct (row !! k); simpl.
  - intros H. left. exact (py_int_raises _ _ H).
  - intros [= <-]. now right.
Qed.

Lemma item_float_raised row k e :
  (item row k ≫= py_float) = Raised e ->
  e = ValueError \/ row !! k = None /\ e = KeyError k.
Proof.
  unfold item. destruct (row !! k); simpl.
  - intros H. left. exact (py_float_raises _ _ H).
  - intros [= <-]. now right.
Qed.














Example load_row_full :
  load_row row_full =
    Returned {| columns := row_full; Threads := 4; Activations := 100;
                Misses := 2; MissRate := 2; AvgResponseTime := 12;
                MaxResponseTime := 30; Jitter := 3; ContextSwitches := 250;
                Preemptions := 40; CSPerActivation := 2.5; OverheadPercent := 1.25;
                Utilization := 0.5; NormalizedMissRate := 4 |}.
Proof. vm_compute. reflexivity. Qed.

(** *** The efficiency bands *)

Lemma efficiency_color_agree (v : float) :
  (efficiency v, bar_color v) =
  if lt v 10 then ("EXCELLENT - Very efficient", "darkgreen")
  else if lt v 25 then ("GOOD - Reasonably efficient", "green")
  else if lt v 50 then ("ACCEPTABLE - Moderate efficiency", "orange")
  else ("POOR - Low efficiency", "red").
Proof.
  unfold efficiency, bar_color.
  destruct (lt v 10); [reflexivity|].
  destruct (lt v 25); [reflexivity|].
  now destruct (lt v 50).
Qed.

(** C6.  The efficiency rating of the report and the bar color of the
    plot use the same bands of the average normalized miss rate: below 10
    excellent (dark green), from 10 to below 25 good (green), from 25 to
    below 50 acceptable (orange), from 50 on poor (red); the values 10, 25
    and 50 themselves fall in the upper band. *)
Theorem efficiency_bands (v : float) :
  (lt v 10 = true ->
     efficiency v = "EXCELLENT - Very efficient" /\ bar_color v = "darkgreen") /\
  (le 10 v = true -> lt v 25 = true ->
     efficiency v = "GOOD - Reasonably efficient" /\ bar_color v = "green") /\
  (le 25 v = true -> lt v 50 = true ->
     efficiency v = "ACCEPTABLE - Moderate efficiency" /\ bar_color v = "orange") /\
  (le 50 v = true ->
     efficiency v = "POOR - Low efficiency" /\ bar_color v = "red") /\
  (efficiency 10 = "GOOD - Reasonably efficient" /\ bar_color 10 = "green") /\
  (efficiency 25 = "ACCEPTABLE - Moderate efficiency" /\ bar_color 25 = "orange") /\
  (efficiency 50 = "POOR - Low efficiency" /\ bar_color 50 = "red").
Proof.
  assert (Hband : forall a b, lt a b = true -> le b v = true -> lt v a = false).
  { intros a b Hab Hb. destruct (lt v a) eqn:E; [|reflexivity].
    pose proof (lt_trans _ _ _ E Hab) as Hvb.
    apply le_not_lt in Hb. congruence. }
  pose proof (efficiency_color_agree v) as Hv.
  split; [|split; [|split; [|split]]].
  - intros H. rewrite H in Hv. now injection Hv.
  - intros H10 H. rewrite (le_not_lt _ _ H10), H in Hv. now injection Hv.
  - intros H25 H.
    rewrite (Hband 10 25 eq_refl H25)%float, (le_not_lt _ _ H25), H in Hv.
    now injection Hv.
  - intros H50.
    rewrite (Hband 10 50 eq_refl H50)%float, (Hband 25 50 eq_refl H50)%float,
      (le_not_lt _ _ H50) in Hv.
    now injection Hv.
  - repeat split; reflexivity.
Qed.

(** At 12.5, between the first two boundaries. *)
Lemma efficiency_witness :
  efficiency 12.5 = "GOOD - Reasonably efficient" /\ bar_color 12.5 = "green".
Proof.
  destruct (efficiency_bands 12.5) as (_ & H & _).
  apply H; reflexivity.
Defined.

(** The star rating of the same report grades a different quantity, the
    average raw miss rate, on its own scale. *)
Example star_rating_scale :
  rating 0.5 = "EXCELLENT" /\ rating 1 = "GOOD" /\ rating 5 = "ACCEPTABLE" /\
  rating 15 = "POOR" /\ rating 30 = "INADEQUATE".
Proof. vm_compute. repeat split. Qed.

End PlotClaims.

(** ** Grouping and selection: the claims *)

Module CompareClaims.
Import PyStr PyFloat CompareSchedulers FloatFacts Tables.

(** *** Grouping by workload *)

Lemma rows_of_append_to w r (groups : list (string * list result)) w' :
  rows_of w' (append_to w r groups) =
  if String.eqb w w' then (rows_of w' groups ++ [r])%list else rows_of w' groups.
Proof.
  induction groups as [|[w0 rs] groups IH]; simpl.
  - now destruct (String.eqb w w').
  - destruct (String.eqb_spec w0 w) as [->|Hne]; simpl.
    + now destruct (String.eqb w w').
    + rewrite IH. destruct (String.eqb_spec w0 w') as [->|Hne'].
      * destruct (String.eqb_spec w w') as [->|]; [contradiction | reflexivity].
      * reflexivity.
Qed.


Lemma group_into_rows_of (results : list result) : forall groups groups',
  group_into groups results = Returned groups' ->
  forall w, rows_of w groups' = (rows_of w groups ++ filter (of_workload w) results)%list.
Proof.
  induction results as [|r results IH]; intros groups groups' H w; simpl in H.
  - injection H as <-. now rewrite app_nil_r.
  - unfold item in H. destruct (r !! "workload") as [wr|] eqn:E; [|discriminate].
    simpl in H. rewrite (IH _ _ H w), rows_of_append_to.
    destruct (String.eqb_spec wr w) as [->|Hne].
    + rewrite filter_cons_True by exact E. now rewrite <- app_assoc.
    + rewrite filter_cons_False; [reflexivity|].
      unfold of_workload. congruence.
Qed.

Lemma group_into_outcome (results : list result) : forall groups,
  (Forall (fun r => is_Some (r !! "workload")) results ->
     exists groups', group_into groups results = Returned groups') /\
  (~ Forall (fun r => is_Some (r !! "workload")) results ->
     group_into groups results = Raised (KeyError "workload")).
Proof.
  induction results as [|r results IH]; intros groups; simpl.
  - split; [eauto | intros H; elim H; constructor].
  - unfold item. destruct (r !! "workload") as [wr|] eqn:E; simpl.
    + destruct (IH (append_to wr r groups)) as [IH1 IH2]. split.
      * intros H. apply Forall_cons in H as [_ H]. auto.
      * intros H. apply IH2. intros H'. apply H. constructor; [eauto | exact H'].
    + split; [|reflexivity].
      intros H. apply Forall_cons in H as [[? H] _]. congruence.
Qed.

(** The rows of a workload do not depend on the order of the input, up to
    their own order. *)
Lemma grouping_of_permuted_rows (results results' : list result) (w : string) :
  results ≡ₚ results' ->
  match group_by_workload results, group_by_workload results' with
  | Returned g, Returned g' =>
      rows_of w g = filter (of_workload w) results /\
      rows_of w g' = filter (of_workload w) results' /\
      rows_of w g ≡ₚ rows_of w g'
  | Raised e, Raised e' => e = e'
  | _, _ => False
  end.
Proof.
  intros Hp. unfold group_by_workload.
  destruct (decide (Forall (fun r => is_Some (r !! "workload")) results)) as [Hall|Hnot].
  - destruct (proj1 (group_into_outcome results []) Hall) as (g & Hg).
    assert (Hall' : Forall (fun r => is_Some (r !! "workload")) results')
      by now rewrite <- Hp.
    destruct (proj1 (group_into_outcome results' []) Hall') as (g' & Hg').
    rewrite Hg, Hg'.
    pose proof (group_into_rows_of _ _ _ Hg w) as E.
    pose proof (group_into_rows_of _ _ _ Hg' w) as E'.
    simpl in E, E'. rewrite E, E'. repeat split. now rewrite Hp.
  - assert (Hnot' : ~ Forall (fun r => is_Some (r !! "workload")) results')
      by now rewrite <- Hp.
    rewrite (proj2 (group_into_outcome results []) Hnot).
    now rewrite (proj2 (group_into_outcome results' []) Hnot').
Qed.

(** *** [min] with a key *)




(** *** [find_best_scheduler] *)









End CompareClaims.

(** ** Aggregation and the order of the rows *)

Module AggregationClaims.
Import PyStr PyFloat PlotResults CompareSchedulers FloatFacts MaxFacts Tables
  CompareClaims.

Lemma fold_add (xs : list Z) : forall acc, fold_left Z.add xs acc = acc + sum_int xs.
Proof.
  unfold sum_int. induction xs as [|x xs IH]; intros acc; simpl; [lia|].
  rewrite (IH (acc + x)), (IH (0 + x)). lia.
Qed.

Lemma sum_int_cons x xs : sum_int (x :: xs) = x + sum_int xs.
Proof. unfold sum_int at 1. simpl. apply fold_add. Qed.

Lemma sum_int_perm (xs ys : list Z) : xs ≡ₚ ys -> sum_int xs = sum_int ys.
Proof.
  induction 1; rewrite ?sum_int_cons; lia.
Qed.

Lemma max_int_perm (xs ys : list Z) : xs ≡ₚ ys -> max_of Z.gtb xs = max_of Z.gtb ys.
Proof.
  intros Hp. apply (max_of_perm Z.gtb (fun _ => True)); auto.
  - intros x. rewrite Z.gtb_ltb. apply Z.ltb_irrefl.
  - intros x y z. rewrite !Z.gtb_ltb, !Z.ltb_lt. lia.
  - intros x y _ _. rewrite !Z.gtb_ltb, !Z.ltb_lt. lia.
  - now apply Forall_forall.
Qed.

Lemma max_float_perm (xs ys : list float) :
  xs ≡ₚ ys -> Forall (fun x => ordinary x = true) xs -> max_of gt xs = max_of gt ys.
Proof.
  apply max_of_perm.
  - intros x. apply lt_irrefl.
  - intros x y z Hxy Hyz. exact (lt_trans _ _ _ Hyz Hxy).
  - intros x y Hx Hy. destruct (lt_total x y Hx Hy) as [H | [H | H]]; auto.
Qed.

Lemma min_float_perm (xs ys : list float) :
  xs ≡ₚ ys -> Forall (fun x => ordinary x = true) xs -> max_of lt xs = max_of lt ys.
Proof.
  apply max_of_perm.
  - intros x. apply lt_irrefl.
  - apply lt_trans.
  - apply lt_total.
Qed.

Lemma column_outcome key (data : list Row) :
  (Forall (fun r => is_Some (columns r !! key)) data ->
     column key data = Returned (omap (fun r => columns r !! key) data)) /\
  (~ Forall (fun r => is_Some (columns r !! key)) data ->
     column key data = Raised (KeyError key)).
Proof.
  induction data as [|r data [IH1 IH2]]; simpl.
  - split; [reflexivity | intros H; elim H; constructor].
  - unfold PlotResults.item. destruct (columns r !! key) as [v|] eqn:E; simpl.
    + split.
      * intros H. apply Forall_cons in H as [_ H]. now rewrite (IH1 H).
      * intros H. rewrite IH2; [reflexivity|].
        intros H'. apply H. constructor; [eauto | exact H'].
    + split; [|reflexivity].
      intros H. apply Forall_cons in H as [[? H] _]. congruence.
Qed.

Lemma get_unique_values_perm key (data data' : list Row) :
  data ≡ₚ data' -> get_unique_values data key = get_unique_values data' key.
Proof.
  intros Hp. unfold get_unique_values.
  destruct (decide (Forall (fun r => is_Some (columns r !! key)) data)) as [Hall|Hnot].
  - assert (Hall' : Forall (fun r => is_Some (columns r !! key)) data')
      by now rewrite <- Hp.
    rewrite (proj1 (column_outcome key data) Hall).
    rewrite (proj1 (column_outcome key data') Hall'). simpl.
    now rewrite Hp.
  - assert (Hnot' : ~ Forall (fun r => is_Some (columns r !! key)) data')
      by now rewrite <- Hp.
    rewrite (proj2 (column_outcome key data) Hnot).
    now rewrite (proj2 (column_outcome key data') Hnot').
Qed.

(** C4 (as amended).  For permuted inputs, the report lists the same
    schedulers and each scheduler has the same rows up to order, hence the
    same count, number of zero-miss scenarios, total of context switches,
    average and maximum response time and jitter (sums and maxima of
    integers), and, when no miss rate of the scheduler is NaN or the negative
    zero, the same minimum and maximum miss rate; likewise the rows grouped
    under a workload are the same up to order.  The averages of the float
    columns are sums of floats taken in the order of the rows and are left
    out. *)
Theorem statistics_of_permuted_rows (data data' : list Row)
    (results results' : list result) (sched workload : string) :
  data ≡ₚ data' -> results ≡ₚ results' ->
  get_unique_values data "Scheduler" = get_unique_values data' "Scheduler" /\
  sched_data data sched ≡ₚ sched_data data' sched /\
  length (sched_data data sched) = length (sched_data data' sched) /\
  zero_miss (sched_data data sched) = zero_miss (sched_data data' sched) /\
  total_int ContextSwitches (sched_data data sched)
    = total_int ContextSwitches (sched_data data' sched) /\
  avg_int AvgResponseTime (sched_data data sched)
    = avg_int AvgResponseTime (sched_data data' sched) /\
  max_int MaxResponseTime (sched_data data sched)
    = max_int MaxResponseTime (sched_data data' sched) /\
  avg_int Jitter (sched_data data sched) = avg_int Jitter (sched_data data' sched) /\
  max_int Jitter (sched_data data sched) = max_int Jitter (sched_data data' sched) /\
  (Forall (fun r => ordinary (MissRate r) = true) (sched_data data sched) ->
     max_float MissRate (sched_data data sched)
       = max_float MissRate (sched_data data' sched) /\
     min_float MissRate (sched_data data sched)
       = min_float MissRate (sched_data data' sched)) /\
  match group_by_workload results, group_by_workload results' with
  | Returned g, Returned g' =>
      rows_of workload g = filter (of_workload workload) results /\
      rows_of workload g' = filter (of_workload workload) results' /\
      rows_of workload g ≡ₚ rows_of workload g'
  | Raised e, Raised e' => e = e'
  | _, _ => False
  end.
Proof.
  intros Hp Hr.
  assert (Hs : sched_data data sched ≡ₚ sched_data data' sched)
    by (unfold sched_data; now rewrite Hp).
  assert (Hlen : length (sched_data data sched) = length (sched_data data' sched))
    by now rewrite Hs.
  assert (Hsum : forall f, total_int f (sched_data data sched)
                           = total_int f (sched_data data' sched)).
  { intros f. unfold total_int. apply sum_int_perm. now rewrite Hs. }
  assert (Hmax : forall f, max_int f (sched_data data sched)
                           = max_int f (sched_data data' sched)).
  { intros f. unfold max_int, max_or_raise.
    rewrite (max_int_perm (f <$> sched_data data sched) (f <$> sched_data data' sched));
      [reflexivity | now rewrite Hs]. }
  assert (Havg : forall f, avg_int f (sched_data data sched)
                           = avg_int f (sched_data data' sched)).
  { intros f. unfold avg_int, count_rows. fold (total_int f (sched_data data sched)).
    fold (total_int f (sched_data data' sched)). now rewrite Hsum, Hlen. }
  split; [now apply get_unique_values_perm|].
  split; [exact Hs|]. split; [exact Hlen|].
  split; [unfold zero_miss; now rewrite Hs|].
  split; [apply Hsum|]. split; [apply Havg|]. split; [apply Hmax|].
  split; [apply Havg|]. split; [apply Hmax|].
  split; [|now apply grouping_of_permuted_rows].
  intros Hord.
  assert (Hord' : Forall (fun x => ordinary x = true) (MissRate <$> sched_data data sched))
    by (apply Forall_fmap; exact Hord).
  assert (Hperm : MissRate <$> sched_data data sched ≡ₚ MissRate <$> sched_data data' sched)
    by now rewrite Hs.
  unfold max_float, min_float, max_or_raise.
  now rewrite (max_float_perm _ _ Hperm Hord'), (min_float_perm _ _ Hperm Hord').
Qed.

(** On three rows of one scheduler, the first two exchanged. *)
Lemma statistics_witness :
  max_int MaxResponseTime
    (sched_data [edf_row 2 3 30; edf_row 0 0 45; edf_row 1.5 1 20] "EDF")
  = max_int MaxResponseTime
      (sched_data [edf_row 0 0 45; edf_row 2 3 30; edf_row 1.5 1 20] "EDF").
Proof.
  apply (statistics_of_permuted_rows
           [edf_row 2 3 30; edf_row 0 0 45; edf_row 1.5 1 20]
           [edf_row 0 0 45; edf_row 2 3 30; edf_row 1.5 1 20]
           [summary_row "RMS"; summary_row "EDF"]
           [summary_row "EDF"; summary_row "RMS"] "EDF" "Light").
  - apply perm_swap.
  - apply perm_swap.
Defined.

(** C4, as stated, fails: [max] and [min] keep their first argument
    unless a later one compares strictly greater (smaller), and no comparison
    with NaN holds; so with the two rows in one order the report shows NaN as
    the highest and lowest miss rate of the scheduler, in the other order
    1.0. *)
Lemma miss_rate_extremes_depend_on_order :
  load_csv [file_idle; file_busy] = Returned (loaded [file_idle; file_busy]) /\
  load_csv [file_busy; file_idle] = Returned (loaded [file_busy; file_idle]) /\
  max_float MissRate (sched_data (loaded [file_idle; file_busy]) "EDF") = Returned nan /\
  max_float MissRate (sched_data (loaded [file_busy; file_idle]) "EDF") = Returned 1%float /\
  min_float MissRate (sched_data (loaded [file_idle; file_busy]) "EDF") = Returned nan /\
  min_float MissRate (sched_data (loaded [file_busy; file_idle]) "EDF") = Returned 1%float.
Proof. vm_compute. repeat split. Qed.

(** With the additions carried out from left to right, the rounding of an
    average of floats depends on the order of the rows as well; and a sum that
    overflows on the way does so in one order and not in another. *)
Example float_average_depends_on_order :
  float_div_int (PyFloat.sum [0.1; 0.2; 0.3]%float) 3
    = Returned 0x1.999999999999bp-3%float /\
  float_div_int (PyFloat.sum [0.3; 0.2; 0.1]%float) 3
    = Returned 0x1.9999999999999p-3%float /\
  PyFloat.sum [1e308; 1e308; -1e308]%float = infinity /\
  PyFloat.sum [1e308; -1e308; 1e308]%float = 1e308%float.
Proof. vm_compute. repeat split. Qed.

End AggregationClaims.
